(** * Taqyon desktop shell: frontend resolution, navigation policy,
      context menu and the bridged backend object

    A shallow embedding of the decision logic of the Qt application
    template (app_setup.cpp, main.cpp, mywebpage.cpp, mywebview.cpp,
    backendobject.cpp).  Calls into the toolkit that have an observable
    effect (file-system probes, log lines, emitted signals, URLs handed to
    the desktop) are recorded in an event trace, so that statements such as
    "no later candidate is consulted" are statements about that trace. *)

From Stdlib Require Import ZArith Ascii String List Bool Lia.
Import ListNotations.
Open Scope string_scope.

(** ** The toolkit boundary *)

Module Qt.

(** QtMsgType, as enumerated in [messageHandler]. *)
Inductive QtMsgType :=
| QtDebugMsg | QtInfoMsg | QtWarningMsg | QtCriticalMsg | QtFatalMsg.

(** A QUrl is represented by the constructor call that built it:
    [QUrl()], [QUrl(s)] or [QUrl::fromLocalFile(p)]. *)
Inductive QUrl :=
| QUrl_default
| QUrl_string (s : string)
| QUrl_fromLocalFile (localFile : string).

(** What Qt's URL class answers about a URL.  That class is not part of
    the repository, so its answers are an interface; only the documented
    fact that [QUrl()] is invalid is fixed (see [isValid]). *)
Class UrlParser := {
  string_valid : string -> bool;      (* QUrl(s).isValid() *)
  localFile_valid : string -> bool;   (* QUrl::fromLocalFile(p).isValid() *)
  scheme : QUrl -> string;            (* url.scheme() *)
  isEmpty : QUrl -> bool;             (* url.isEmpty() *)
  toString : QUrl -> string           (* url.toString() *)
}.

Definition isValid `{UrlParser} (u : QUrl) : bool :=
  match u with
  | QUrl_default => false
  | QUrl_string s => string_valid s
  | QUrl_fromLocalFile p => localFile_valid p
  end.

(** One observable step of the program.  A log line keeps the items
    streamed into it, in order. *)
Inductive Event :=
| Log (type : QtMsgType) (items : list string)
| DirExists (path : string)          (* QDir(path).exists() *)
| FileExists (path : string)         (* QFileInfo(path).exists() *)
| OpenUrl (url : QUrl)               (* QDesktopServices::openUrl(url) *)
| SetUrl (url : QUrl)                (* webView->setUrl(url) *)
| Exec.                              (* app.exec() *)

(** Computations that append to the trace. *)
Definition IO (A : Type) : Type := (A * list Event)%type.

Definition ret {A} (a : A) : IO A := (a, []).

Definition bind {A B} (m : IO A) (f : A -> IO B) : IO B :=
  (fst (f (fst m)), (snd m ++ snd (f (fst m)))%list).

Definition emit (e : Event) : IO unit := (tt, [e]).

Definition qInfo (items : list string) : IO unit := emit (Log QtInfoMsg items).
Definition qWarning (items : list string) : IO unit := emit (Log QtWarningMsg items).
Definition qCritical (items : list string) : IO unit := emit (Log QtCriticalMsg items).

Definition result {A} (m : IO A) : A := fst m.
Definition trace {A} (m : IO A) : list Event := snd m.

(** The directories and the files a trace asked the file system about. *)
Fixpoint dir_probes (t : list Event) : list string :=
  match t with
  | [] => []
  | DirExists p :: t' => p :: dir_probes t'
  | _ :: t' => dir_probes t'
  end.

Fixpoint file_probes (t : list Event) : list string :=
  match t with
  | [] => []
  | FileExists p :: t' => p :: file_probes t'
  | _ :: t' => file_probes t'
  end.

(** The URLs a trace gave to the web view. *)
Fixpoint loaded_urls (t : list Event) : list QUrl :=
  match t with
  | [] => []
  | SetUrl u :: t' => u :: loaded_urls t'
  | _ :: t' => loaded_urls t'
  end.

(** How [main] leaves: [return 1], or [return result] with the value of
    [app.exec()]. *)
Inductive Exit :=
| Return (code : Z)
| ReturnExec.

End Qt.

Import Qt.

Declare Scope io_scope.
Delimit Scope io_scope with io.
Notation "x <- m ;; k" := (bind m (fun x => k))
  (at level 61, m at next level, right associativity) : io_scope.
Notation "m ;; k" := (bind m (fun _ => k))
  (at level 61, right associativity) : io_scope.
Open Scope io_scope.

(** ** Command line and process environment *)

Module CommandLine.

(** The parsed command line: for each option that takes a value, [Some v]
    when the option was given (with value [v]), [None] otherwise. *)
Record QCommandLineParser := {
  opt_verbose : bool;
  opt_log : option string;
  opt_dev_server : option string;
  opt_frontend_path : option string
}.

Definition is_some {A} (o : option A) : bool :=
  match o with Some _ => true | None => false end.

Definition isSet (parser : QCommandLineParser) (name : string) : bool :=
  if name =? "verbose" then opt_verbose parser
  else if name =? "log" then is_some (opt_log parser)
  else if name =? "dev-server" then is_some (opt_dev_server parser)
  else if name =? "frontend-path" then is_some (opt_frontend_path parser)
  else false.

(** [value] falls back to the default declared with the option; only
    dev-server declares one (setupCommandLineParser). *)
Definition value (parser : QCommandLineParser) (name : string) : string :=
  if name =? "log" then
    match opt_log parser with Some v => v | None => EmptyString end
  else if name =? "dev-server" then
    match opt_dev_server parser with
    | Some v => v
    | None => "http://localhost:3000"
    end
  else if name =? "frontend-path" then
    match opt_frontend_path parser with Some v => v | None => EmptyString end
  else EmptyString.

(** What the locator reads from the process and the file system. *)
Record Env := {
  applicationDirPath : string;
  currentPath : string;
  dir_exists : string -> bool;
  file_exists : string -> bool
}.

Definition QDir_exists (env : Env) (path : string) : IO bool :=
  emit (DirExists path) ;; ret (dir_exists env path).

Definition QFileInfo_exists (env : Env) (path : string) : IO bool :=
  emit (FileExists path) ;; ret (file_exists env path).

End CommandLine.

Import CommandLine.

(** ** Frontend Locator: app/app_setup.cpp and app/main.cpp *)

Module AppSetup.

Section Resolve.
Context `{UrlParser}.
Variable env : Env.

(** The fallback list, app_setup.cpp lines 68-74. *)
Definition possiblePaths : list string :=
  [ applicationDirPath env ++ "/frontend/dist";
    currentPath env ++ "/frontend/dist";
    currentPath env ++ "/../frontend/dist";
    currentPath env ++ "/../../frontend/dist";
    currentPath env ++ "/../../../frontend/dist" ].

(** The [for] loop with its [break]: [Some path] when [found] was set,
    [path] being the value then assigned to [frontendPath]. *)
Fixpoint search (paths : list string) : IO (option string) :=
  match paths with
  | [] => ret None
  | path :: rest =>
      e <- QDir_exists env path ;;
      if e then
        qInfo ["Found frontend at:"; path] ;;
        ret (Some path)
      else search rest
  end.

(** Lines 93-101: the entry file check. *)
Definition loadIndex (frontendPath : string) : IO QUrl :=
  let indexPath := frontendPath ++ "/index.html" in
  e <- QFileInfo_exists env indexPath ;;
  if negb e then
    qCritical ["index.html not found at:"; indexPath] ;;
    qInfo ["Make sure you've built the frontend with 'npm run frontend:build'"] ;;
    ret QUrl_default
  else
    qInfo ["Loading frontend from:"; indexPath] ;;
    ret (QUrl_fromLocalFile indexPath).

Definition resolveFrontendUrl (parser : QCommandLineParser) : IO QUrl :=
  if isSet parser "dev-server" then
    let devServerUrl := value parser "dev-server" in
    qInfo ["Loading frontend from dev server:"; devServerUrl] ;;
    ret (QUrl_string devServerUrl)
  else if isSet parser "frontend-path" then
    let frontendPath := value parser "frontend-path" in
    qInfo ["Using provided frontend path:"; frontendPath] ;;
    loadIndex frontendPath
  else
    let frontendPath := applicationDirPath env ++ "/../frontend/dist" in
    e <- QDir_exists env frontendPath ;;
    if negb e then
      found <- search possiblePaths ;;
      match found with
      | None =>
          qCritical ["Could not find frontend directory in any of the expected locations."] ;;
          qInfo ["Please specify the frontend path with --frontend-path option."] ;;
          ret QUrl_default
      | Some frontendPath => loadIndex frontendPath
      end
    else loadIndex frontendPath.

(** app/main.cpp from the "Frontend URL" step on (lines 74-91).  The steps
    before it (verbose logging, the log file, the widgets, the web channel)
    read neither the dev-server nor the frontend-path option and ask about
    no directory and no entry file; their events are not part of this
    trace. *)
Definition main (parser : QCommandLineParser) : IO Exit :=
  frontendUrl <- resolveFrontendUrl parser ;;
  if negb (isValid frontendUrl) then ret (Return 1)
  else
    emit (SetUrl frontendUrl) ;;
    emit Exec ;;
    ret ReturnExec.

End Resolve.

End AppSetup.

(** ** Frontend Locator, inlined in the single-file main.cpp *)

Module MainCpp.

Section Main.
Variable env : Env.

Definition possiblePaths : list string :=
  [ applicationDirPath env ++ "/frontend/dist";
    currentPath env ++ "/frontend/dist";
    currentPath env ++ "/../frontend/dist";
    currentPath env ++ "/../../frontend/dist";
    currentPath env ++ "/../../../frontend/dist" ].

(** Lines 192-202. *)
Fixpoint search (paths : list string) : IO (option string) :=
  match paths with
  | [] => ret None
  | path :: rest =>
      qInfo ["Checking for frontend at:"; path] ;;
      e <- QDir_exists env path ;;
      if e then
        qInfo ["Found frontend at:"; path] ;;
        ret (Some path)
      else search rest
  end.

(** Lines 231-246: load the URL, show the window, run the event loop. *)
Definition load (frontendUrl : QUrl) : IO Exit :=
  emit (SetUrl frontendUrl) ;;
  emit Exec ;;
  ret ReturnExec.

(** Lines 213-227, followed by [load]. *)
Definition loadIndex (frontendPath : string) : IO Exit :=
  let indexPath := frontendPath ++ "/index.html" in
  e <- QFileInfo_exists env indexPath ;;
  if negb e then
    qCritical ["index.html not found at:"; indexPath] ;;
    qInfo ["Make sure you've built the frontend with 'npm run frontend:build'"] ;;
    ret (Return 1)
  else
    qInfo ["Loading frontend from:"; indexPath] ;;
    load (QUrl_fromLocalFile indexPath).

(** main.cpp from "Determine the frontend URL" on (lines 158-246); as for
    app/main.cpp, the events of the earlier steps are not part of the
    trace. *)
Definition main (parser : QCommandLineParser) : IO Exit :=
  if isSet parser "dev-server" then
    let devServerUrl := value parser "dev-server" in
    let frontendUrl := QUrl_string devServerUrl in
    qInfo ["Loading frontend from dev server:"; devServerUrl] ;;
    load frontendUrl
  else if isSet parser "frontend-path" then
    let frontendPath := value parser "frontend-path" in
    qInfo ["Using provided frontend path:"; frontendPath] ;;
    loadIndex frontendPath
  else
    let frontendPath := applicationDirPath env ++ "/../frontend/dist" in
    e <- QDir_exists env frontendPath ;;
    if negb e then
      qWarning ["Frontend directory not found at:"; frontendPath] ;;
      found <- search possiblePaths ;;
      match found with
      | None =>
          qCritical ["Could not find frontend directory in any of the expected locations."] ;;
          qInfo ["Please specify the frontend path with --frontend-path option."] ;;
          ret (Return 1)
      | Some frontendPath => loadIndex frontendPath
      end
    else loadIndex frontendPath.

End Main.

End MainCpp.

(** ** The probe sequence in the words of the specification *)

Module LocatorSpec.

(** The six candidates of section 4.1, step 3, in the order given there. *)
Definition probe_sequence (appDir cwd : string) : list string :=
  [ appDir ++ "/../frontend/dist";
    appDir ++ "/frontend/dist";
    cwd ++ "/frontend/dist";
    cwd ++ "/../frontend/dist";
    cwd ++ "/../../frontend/dist";
    cwd ++ "/../../../frontend/dist" ].

(** The candidates looked at when probing left to right and stopping at
    the first hit: everything up to and including that hit. *)
Fixpoint consulted (exists_ : string -> bool) (cands : list string) : list string :=
  match cands with
  | [] => []
  | c :: rest => if exists_ c then [c] else c :: consulted exists_ rest
  end.

(** "First match wins". *)
Definition first_existing (exists_ : string -> bool) (cands : list string)
  : option string :=
  find exists_ cands.

Definition no_frontend_directory : Event :=
  Log QtCriticalMsg
    ["Could not find frontend directory in any of the expected locations."].

Definition missing_index_html (indexPath : string) : Event :=
  Log QtCriticalMsg ["index.html not found at:"; indexPath].

End LocatorSpec.

(** ** Navigation Policy: app/mywebpage.cpp *)

Module Navigation.

(** QWebEnginePage::NavigationType. *)
Inductive NavigationType :=
| NavigationTypeLinkClicked
| NavigationTypeTyped
| NavigationTypeFormSubmitted
| NavigationTypeBackForward
| NavigationTypeReload
| NavigationTypeOther
| NavigationTypeRedirect.

Definition NavigationType_eqb (a b : NavigationType) : bool :=
  match a, b with
  | NavigationTypeLinkClicked, NavigationTypeLinkClicked
  | NavigationTypeTyped, NavigationTypeTyped
  | NavigationTypeFormSubmitted, NavigationTypeFormSubmitted
  | NavigationTypeBackForward, NavigationTypeBackForward
  | NavigationTypeReload, NavigationTypeReload
  | NavigationTypeOther, NavigationTypeOther
  | NavigationTypeRedirect, NavigationTypeRedirect => true
  | _, _ => false
  end.

Section Page.
Context `{UrlParser}.

(** The base class method [QWebEnginePage::acceptNavigationRequest], to
    which every request that is not intercepted is passed on. *)
Variable QWebEnginePage_acceptNavigationRequest :
  QUrl -> NavigationType -> bool -> bool.

(** [MyWebPage::acceptNavigationRequest]; [false] tells the renderer not
    to navigate. *)
Definition acceptNavigationRequest
    (url : QUrl) (type : NavigationType) (isMainFrame : bool) : IO bool :=
  if isMainFrame && NavigationType_eqb type NavigationTypeLinkClicked then
    if (scheme url =? "http") || (scheme url =? "https") then
      qInfo ["Intercepted link click to:"; toString url; ". Opening externally."] ;;
      emit (OpenUrl url) ;;
      ret false
    else ret (QWebEnginePage_acceptNavigationRequest url type isMainFrame)
  else ret (QWebEnginePage_acceptNavigationRequest url type isMainFrame).

End Page.

(** The rule of section 4.2 in the words of the specification. *)
Definition shouldInterceptNavigation
    (urlScheme : string) (isTopLevelFrame isUserLinkClick : bool) : bool :=
  isTopLevelFrame && isUserLinkClick &&
  ((urlScheme =? "http") || (urlScheme =? "https")).

(** A request was intercepted when the in-app navigation was refused and
    the URL went to the desktop's default handler. *)
Definition intercepted (url : QUrl) (r : IO bool) : Prop :=
  result r = false /\ In (OpenUrl url) (trace r).

End Navigation.

(** ** Context Menu Builder: mywebview.cpp *)

Module ContextMenu.

(** The page actions the menu asks for (QWebEnginePage::WebAction). *)
Inductive WebAction := Back | Forward | Reload | ViewSource | InspectElement.

Record QAction := { isEnabled : bool }.

(** [action] may hand back a null pointer, hence the option. *)
Record QWebEnginePage := { action : WebAction -> option QAction }.

Record QWebEngineContextMenuRequest := {
  linkUrl : QUrl;
  selectedText : string
}.

Inductive MenuItem :=
| PageAction (a : WebAction)
| Separator
| OpenLinkInExternalBrowser (urlToOpen : QUrl)
| Copy (textToCopy : string).

Definition QMenu := list MenuItem.

Definition addAction (menu : QMenu) (item : MenuItem) : QMenu := (menu ++ [item])%list.
Definition addSeparator (menu : QMenu) : QMenu := (menu ++ [Separator])%list.

Definition isSeparator (item : MenuItem) : bool :=
  match item with Separator => true | _ => false end.

(** QMenu::isEmpty: no action other than separators (all the actions
    inserted here are visible). *)
Definition QMenu_isEmpty (menu : QMenu) : bool := forallb isSeparator menu.

Definition QString_isEmpty (s : string) : bool := s =? EmptyString.

(** What the handler ends in: [menu.exec(...)] on the menu it built, or
    the base class [QWebEngineView::contextMenuEvent]. *)
Inductive Shown :=
| MenuExec (menu : QMenu)
| QWebEngineView_contextMenuEvent.

(** The test [a && a->isEnabled()] on a possibly null action. *)
Definition enabled (a : option QAction) : bool :=
  match a with Some act => isEnabled act | None => false end.

Section View.
Context `{UrlParser}.

Definition contextMenuEvent
    (request : option QWebEngineContextMenuRequest)
    (currentPage : option QWebEnginePage) : Shown :=
  match request, currentPage with
  | Some request, Some currentPage =>
      let menu : QMenu := [] in
      let backAction := action currentPage Back in
      let menu := if enabled backAction
                  then addAction menu (PageAction Back) else menu in
      let forwardAction := action currentPage Forward in
      let menu := if enabled forwardAction
                  then addAction menu (PageAction Forward) else menu in
      let reloadAction := action currentPage Reload in
      let menu := if enabled reloadAction
                  then addAction menu (PageAction Reload) else menu in
      let hasStandardActions := negb (QMenu_isEmpty menu) in
      let willHaveCustomLinkAction := negb (isEmpty (linkUrl request)) in
      let willHaveCustomCopyAction := negb (QString_isEmpty (selectedText request)) in
      let menu :=
        if hasStandardActions && (willHaveCustomLinkAction || willHaveCustomCopyAction)
        then addSeparator menu else menu in
      let menu :=
        if willHaveCustomLinkAction
        then addAction menu (OpenLinkInExternalBrowser (linkUrl request))
        else menu in
      let menu :=
        if willHaveCustomCopyAction
        then addAction menu (Copy (selectedText request))
        else menu in
      let viewSourceAction := action currentPage ViewSource in
      let menu :=
        if enabled viewSourceAction then
          let menu :=
            if negb (QMenu_isEmpty menu) &&
               (willHaveCustomLinkAction || willHaveCustomCopyAction || hasStandardActions)
            then addSeparator menu else menu in
          addAction menu (PageAction ViewSource)
        else menu in
      let inspectElementAction := action currentPage InspectElement in
      let menu :=
        if enabled inspectElementAction then
          let menu :=
            if negb (QMenu_isEmpty menu) &&
               (willHaveCustomLinkAction || willHaveCustomCopyAction ||
                hasStandardActions || enabled viewSourceAction)
            then addSeparator menu else menu in
          addAction menu (PageAction InspectElement)
        else menu in
      if negb (QMenu_isEmpty menu) then MenuExec menu
      else QWebEngineView_contextMenuEvent
  | _, _ => QWebEngineView_contextMenuEvent
  end.

End View.

(** *** The builder in the words of section 4.3 *)

Record Caps := {
  canBack : bool;
  canForward : bool;
  canReload : bool;
  capLinkUrl : option QUrl;
  capSelectedText : option string;
  canViewSource : bool;
  canInspect : bool
}.

Definition when {A} (b : bool) (l : list A) : list A := if b then l else [].

Definition present {A} (o : option A) : bool :=
  match o with Some _ => true | None => false end.

Definition nonempty {A} (l : list A) : bool :=
  match l with [] => false | _ => true end.

(** Step 1. *)
Definition standard_group (c : Caps) : QMenu :=
  (when (canBack c) [PageAction Back] ++
   when (canForward c) [PageAction Forward] ++
   when (canReload c) [PageAction Reload])%list.

(** Step 2: the separator after the standard group. *)
Definition standard_separator (c : Caps) : QMenu :=
  when (nonempty (standard_group c) &&
        (present (capLinkUrl c) || present (capSelectedText c))) [Separator].

(** Steps 3 and 4. *)
Definition custom_group (c : Caps) : QMenu :=
  (match capLinkUrl c with Some u => [OpenLinkInExternalBrowser u] | None => [] end ++
   match capSelectedText c with Some t => [Copy t] | None => [] end)%list.

(** Steps 5 and 6. *)
Definition view_source_group (c : Caps) : QMenu :=
  (when (nonempty (standard_group c ++ custom_group c) && canViewSource c) [Separator] ++
   when (canViewSource c) [PageAction ViewSource])%list.

(** Step 7. *)
Definition inspect_group (c : Caps) : QMenu :=
  (when ((nonempty (standard_group c ++ custom_group c) || canViewSource c)
         && canInspect c) [Separator] ++
   when (canInspect c) [PageAction InspectElement])%list.

Definition build (c : Caps) : QMenu :=
  (standard_group c ++ standard_separator c ++ custom_group c ++
   view_source_group c ++ inspect_group c)%list.

(** The entries of a menu, separators left out. *)
Definition entries (menu : QMenu) : QMenu :=
  filter (fun item => negb (isSeparator item)) menu.

(** The seven entries in the fixed order, each kept iff its capability
    holds. *)
Definition expected_entries (c : Caps) : QMenu :=
  (when (canBack c) [PageAction Back] ++
   when (canForward c) [PageAction Forward] ++
   when (canReload c) [PageAction Reload] ++
   match capLinkUrl c with Some u => [OpenLinkInExternalBrowser u] | None => [] end ++
   match capSelectedText c with Some t => [Copy t] | None => [] end ++
   when (canViewSource c) [PageAction ViewSource] ++
   when (canInspect c) [PageAction InspectElement])%list.

(** Separators sit only between entries: none leads, none trails, no two
    are adjacent. *)
Fixpoint separators_inside (after_entry : bool) (menu : QMenu) : bool :=
  match menu with
  | [] => after_entry
  | Separator :: rest => after_entry && separators_inside false rest
  | _ :: rest => separators_inside true rest
  end.

Definition well_separated (menu : QMenu) : bool :=
  match menu with
  | [] => true
  | _ => separators_inside false menu
  end.

(** The capabilities the handler reads off the request and the page. *)
Definition capabilities `{UrlParser}
    (request : QWebEngineContextMenuRequest) (page : QWebEnginePage) : Caps :=
  {| canBack := enabled (action page Back);
     canForward := enabled (action page Forward);
     canReload := enabled (action page Reload);
     capLinkUrl := if isEmpty (linkUrl request) then None
                   else Some (linkUrl request);
     capSelectedText := if QString_isEmpty (selectedText request) then None
                        else Some (selectedText request);
     canViewSource := enabled (action page ViewSource);
     canInspect := enabled (action page InspectElement) |}.

(** An empty list falls back to the platform menu. *)
Definition show (menu : QMenu) : Shown :=
  match menu with
  | [] => QWebEngineView_contextMenuEvent
  | _ => MenuExec menu
  end.

End ContextMenu.

(** ** Bridge Object: backendobject.cpp, backend/backendobject.h *)

Module Backend.

Open Scope Z_scope.

(** The C++ [int] of the target platforms: 32 bits, two's complement. *)
Definition INT_MIN : Z := - 2 ^ 31.
Definition INT_MAX : Z := 2 ^ 31 - 1.

(** Wrap-around into the [int] range. *)
Definition to_int (z : Z) : Z := (z + 2 ^ 31) mod 2 ^ 32 - 2 ^ 31.

(** [a + b] on [int].  The C++ standard leaves signed overflow undefined;
    the model takes the wrap-around the compiled code performs. *)
Definition int_add (a b : Z) : Z := to_int (a + b).

(** [QString::arg] for a format string whose only place marker is [%1]:
    every occurrence of the marker is replaced by the argument. *)
Fixpoint QString_arg (format a : string) : string :=
  match format with
  | String "%"%char (String "1"%char rest) => (a ++ QString_arg rest a)%string
  | String c rest => String c (QString_arg rest a)
  | EmptyString => EmptyString
  end.

Record BackendObject := {
  m_message : string;
  m_count : Z
}.

(** The three signals of the class. *)
Inductive Signal :=
| messageChanged (msg : string)
| sendToFrontend (text : string)
| countChanged (count : Z).

(** What a method call does besides updating the fields. *)
Inductive Effect :=
| Emit (s : Signal)
| Info (text : string) (n : Z).      (* qInfo() << text << n *)

(** A [void] member function: the object after the call and what the call
    emitted and logged, in order. *)
Definition Method : Type := BackendObject -> BackendObject * list Effect.

(** The constructor. *)
Definition BackendObject_new : BackendObject :=
  {| m_message := "Hello from C++ backend!"; m_count := 0 |}.

Definition message (self : BackendObject) : string := m_message self.

Definition count (self : BackendObject) : Z := m_count self.

Definition setMessage (msg : string) : Method := fun self =>
  if negb (m_message self =? msg)%string then
    let self := {| m_message := msg; m_count := m_count self |} in
    (self, [Emit (messageChanged (m_message self))])
  else (self, []).

Definition setCount (count : Z) : Method := fun self =>
  let logged := Info "Backend received setCount with value:" count in
  if negb (m_count self =? count) then
    let self := {| m_message := m_message self; m_count := count |} in
    (self, [logged; Emit (countChanged (m_count self))])
  else (self, [logged]).

Definition incrementCount : Method := fun self =>
  let logged := Info "Backend incrementCount called, current count:" (m_count self) in
  let r := setCount (int_add (m_count self) 1) self in
  (fst r, logged :: snd r).

Definition sendToBackend (text : string) : Method := fun self =>
  (self, [Emit (sendToFrontend (QString_arg "Backend received: %1" text))]).

(** The signals among the effects of a call: the notifications observers
    receive. *)
Fixpoint notifications (effects : list Effect) : list Signal :=
  match effects with
  | [] => []
  | Emit s :: rest => s :: notifications rest
  | Info _ _ :: rest => notifications rest
  end.

(** The ways into the object: the two property setters and the two slots. *)
Inductive Call :=
| CallSetMessage (msg : string)
| CallSetCount (count : Z)
| CallIncrementCount
| CallSendToBackend (text : string).

Definition invoke (c : Call) : Method :=
  match c with
  | CallSetMessage msg => setMessage msg
  | CallSetCount n => setCount n
  | CallIncrementCount => incrementCount
  | CallSendToBackend text => sendToBackend text
  end.

(** Calls made one after the other, first call first. *)
Fixpoint run (calls : list Call) : Method := fun self =>
  match calls with
  | [] => (self, [])
  | c :: rest =>
      let r1 := invoke c self in
      let r2 := run rest (fst r1) in
      (fst r2, (snd r1 ++ snd r2)%list)
  end.

(** A call that keeps the counter among the non-negative [int]s: a
    setter argument in [0, INT_MAX], an increment below [INT_MAX]. *)
Definition keeps_count_natural (c : Call) (self : BackendObject) : bool :=
  match c with
  | CallSetCount n => (0 <=? n) && (n <=? INT_MAX)
  | CallIncrementCount => m_count self <? INT_MAX
  | _ => true
  end.

Fixpoint all_keep_count_natural (calls : list Call) (self : BackendObject) : bool :=
  match calls with
  | [] => true
  | c :: rest =>
      keeps_count_natural c self &&
      all_keep_count_natural rest (fst (invoke c self))
  end.

End Backend.

(** ** A small stand-in for Qt's URL class, to run the model on inputs *)

Module Sample.

(** The text before the first colon, if there is one. *)
Fixpoint before_colon (s : string) : option string :=
  match s with
  | EmptyString => None
  | String ":"%char _ => Some EmptyString
  | String c rest =>
      match before_colon rest with
      | Some p => Some (String c p)
      | None => None
      end
  end.

Definition sample_scheme (u : QUrl) : string :=
  match u with
  | QUrl_default => EmptyString
  | QUrl_string s => match before_colon s with Some p => p | None => EmptyString end
  | QUrl_fromLocalFile _ => "file"
  end.

Definition sample_toString (u : QUrl) : string :=
  match u with
  | QUrl_default => EmptyString
  | QUrl_string s => s
  | QUrl_fromLocalFile p => "file://" ++ p
  end.

Definition sample_isEmpty (u : QUrl) : bool :=
  match u with
  | QUrl_default => true
  | QUrl_string s => s =? EmptyString
  | QUrl_fromLocalFile p => p =? EmptyString
  end.

#[global] Instance sample_parser : UrlParser := {|
  string_valid := fun s => negb (s =? EmptyString);
  localFile_valid := fun p => negb (p =? EmptyString);
  scheme := sample_scheme;
  isEmpty := sample_isEmpty;
  toString := sample_toString
|}.

(** The fixture of section 8: the frontend sits at the third candidate
    only. *)
Definition third_candidate_env : Env := {|
  applicationDirPath := "/opt/taqyon/bin";
  currentPath := "/home/dev/app";
  dir_exists := fun p => p =? "/home/dev/app/frontend/dist";
  file_exists := fun p => p =? "/home/dev/app/frontend/dist/index.html"
|}.

(** Nothing on disk. *)
Definition empty_env : Env := {|
  applicationDirPath := "/opt/taqyon/bin";
  currentPath := "/home/dev/app";
  dir_exists := fun _ => false;
  file_exists := fun _ => false
|}.

Definition no_options : QCommandLineParser := {|
  opt_verbose := false;
  opt_log := None;
  opt_dev_server := None;
  opt_frontend_path := None
|}.

(** Qt reads a local path that starts with two slashes as //host/path and
    gives back an invalid URL when the host opens a bracket that is never
    closed.  This parser is the sample one, except that it rejects the one
    path of that kind used below.  It is not declared an instance: it is
    passed by name where it is meant. *)
Definition bracket_parser : UrlParser := {|
  string_valid := fun s => negb (s =? EmptyString);
  localFile_valid := fun p =>
    negb (p =? EmptyString) && negb (p =? "//[/index.html");
  scheme := sample_scheme;
  isEmpty := sample_isEmpty;
  toString := sample_toString
|}.

(** A disk on which that entry file exists. *)
Definition bracket_env : Env := {|
  applicationDirPath := "/opt/taqyon/bin";
  currentPath := "/home/dev/app";
  dir_exists := fun p => p =? "//[";
  file_exists := fun p => p =? "//[/index.html"
|}.

(** Opening a file for append creates it: afterwards the path exists. *)
Definition sample_touch (path : string) (exists_ : string -> bool)
  : string -> bool :=
  fun q => (q =? path) || exists_ q.

End Sample.

(** ** Parsed options: app/app_setup.h and parseCommandLine *)

Module Options.

Record AppOptions := {
  verbose : bool;
  logFilePath : string;
  devServerUrl : string;
  frontendPath : string;
  frontendUrl : QUrl
}.

(** app_setup.cpp lines 27-35; [frontendUrl] stays the default-constructed
    [QUrl()]. *)
Definition parseCommandLine (parser : QCommandLineParser) : AppOptions :=
  {| verbose := isSet parser "verbose";
     logFilePath :=
       if isSet parser "log" then value parser "log" else EmptyString;
     devServerUrl :=
       if isSet parser "dev-server" then value parser "dev-server" else EmptyString;
     frontendPath :=
       if isSet parser "frontend-path" then value parser "frontend-path"
       else EmptyString;
     frontendUrl := QUrl_default |}.

End Options.

(** ** Start-up and shut-down around the locator: setupLogging and the two
       [main] functions in full *)

Module Startup.

Import Options.

(** The steps of [main] that can be observed from outside, the events of
    the locator among them.  A [QFile] object is named by its path. *)
Inductive Step :=
| Ev (e : Event)
| InstallMessageHandler          (* qInstallMessageHandler(messageHandler) *)
| ConnectCountChanged            (* connect(&backend, countChanged, logger) *)
| ConnectLoadFinished            (* notifyPageLoaded(webView) *)
| NewQFile (path : string)       (* new QFile(path) *)
| OpenAppend (path : string)     (* open(WriteOnly | Text | Append) *)
| CloseFile (path : string)      (* logFile->close() *)
| DeleteQFile (path : string).   (* delete logFile *)

Section Main.
Context `{UrlParser}.
Variable env : Env.

(** Whether the file at a path can be opened for appending. *)
Variable open_append : string -> bool.

(** Opening a file for append creates it when it is not there yet.
    [touch path exists_] answers the questions about files once [path]
    has been opened, [exists_] being the answers before. *)
Variable touch : string -> (string -> bool) -> (string -> bool).

(** The body shared by [setupLogging] and main.cpp lines 114-122: the
    value left in [logFile] ([None] is the null pointer) and the steps
    taken. *)
Definition openLogFile (logPath : string) : option string * list Step :=
  if open_append logPath then
    (Some logPath,
     [NewQFile logPath; OpenAppend logPath;
      Ev (Log QtInfoMsg ["Logging to file:"; logPath])])
  else
    (None,
     [NewQFile logPath; OpenAppend logPath;
      Ev (Log QtWarningMsg ["Could not open log file for writing:"; logPath]);
      DeleteQFile logPath]).

(** app_setup.cpp lines 37-50. *)
Definition setupLogging (options : AppOptions) : option string * list Step :=
  if negb (ContextMenu.QString_isEmpty (logFilePath options)) then
    openLogFile (logFilePath options)
  else (None, []).

(** The "Clean up" block that follows [app.exec()]. *)
Definition cleanUp (logFile : option string) : list Step :=
  match logFile with
  | Some path => [CloseFile path; DeleteQFile path]
  | None => []
  end.

(** The disk as the locator finds it: both [main]s open the log file
    before they look for the frontend.  A failed open and a null
    [logFile] leave the disk as it was; no directory is made either
    way. *)
Definition disk_after (logFile : option string) : Env :=
  match logFile with
  | Some path =>
      {| applicationDirPath := applicationDirPath env;
         currentPath := currentPath env;
         dir_exists := dir_exists env;
         file_exists := touch path (file_exists env) |}
  | None => env
  end.

(** The verbose block at the top of both [main]s. *)
Definition verboseBlock (verbose : bool) : list Step :=
  if verbose then
    [InstallMessageHandler;
     Ev (Log QtInfoMsg ["Verbose mode enabled"]);
     Ev (Log QtInfoMsg ["Application directory:"; applicationDirPath env])]
  else [].

(** app/main.cpp, lines 28-92; the locator runs on the disk as
    [setupLogging] left it. *)
Definition app_main (parser : QCommandLineParser) : Exit * list Step :=
  let options := parseCommandLine parser in
  let t_verbose := verboseBlock (verbose options) in
  let logging := setupLogging options in
  let logFile := fst logging in
  let t_backend := if verbose options then [ConnectCountChanged] else [] in
  let resolved := AppSetup.resolveFrontendUrl (disk_after logFile) parser in
  let frontendUrl := result resolved in
  let t := (t_verbose ++ snd logging ++ t_backend ++ map Ev (trace resolved))%list in
  if negb (isValid frontendUrl) then (Return 1, t)
  else
    (ReturnExec,
     (t ++ [Ev (SetUrl frontendUrl); Ev Exec] ++ cleanUp logFile)%list).

(** main.cpp lines 111-123: "Log to file if requested". *)
Definition logToFile (parser : QCommandLineParser) : option string * list Step :=
  if isSet parser "log" then openLogFile (value parser "log")
  else (None, []).

(** main.cpp, lines 68-247.  The frontend part is [MainCpp.main], run on
    the disk as the log file step left it; when it comes back from the
    event loop the clean-up block runs, when it returns 1 it does so
    before that block. *)
Definition main_cpp (parser : QCommandLineParser) : Exit * list Step :=
  let verbose := isSet parser "verbose" in
  let t_verbose := verboseBlock verbose in
  let logging := logToFile parser in
  let logFile := fst logging in
  let t_backend := if verbose then [ConnectCountChanged] else [] in
  let frontend := MainCpp.main (disk_after logFile) parser in
  let t := (t_verbose ++ snd logging ++ t_backend ++ [ConnectLoadFinished] ++
            map Ev (trace frontend))%list in
  match result frontend with
  | ReturnExec => (ReturnExec, (t ++ cleanUp logFile)%list)
  | Return code => (Return code, t)
  end.

End Main.

(** The files a run created, opened, closed and deleted. *)
Fixpoint created (t : list Step) : list string :=
  match t with
  | [] => []
  | NewQFile p :: t' => p :: created t'
  | _ :: t' => created t'
  end.

Fixpoint opened (t : list Step) : list string :=
  match t with
  | [] => []
  | OpenAppend p :: t' => p :: opened t'
  | _ :: t' => opened t'
  end.

Fixpoint closed (t : list Step) : list string :=
  match t with
  | [] => []
  | CloseFile p :: t' => p :: closed t'
  | _ :: t' => closed t'
  end.

Fixpoint deleted (t : list Step) : list string :=
  match t with
  | [] => []
  | DeleteQFile p :: t' => p :: deleted t'
  | _ :: t' => deleted t'
  end.

End Startup.

(** ** Vocabulary for the further properties *)

Module Facts.

Definition is_critical (e : Event) : bool :=
  match e with Log QtCriticalMsg _ => true | _ => false end.

(** A failure was reported: some critical line was logged. *)
Definition reported_failure (t : list Event) : bool := existsb is_critical t.

Definition is_exec (e : Event) : bool :=
  match e with Exec => true | _ => false end.

(** The event loop was entered. *)
Definition entered_event_loop (t : list Event) : bool := existsb is_exec t.

(** A stretch of trace that looks at no file, loads nothing, reports no
    failure and does not enter the event loop. *)
Definition quiet (t : list Event) : Prop :=
  file_probes t = [] /\ loaded_urls t = [] /\
  reported_failure t = false /\ entered_event_loop t = false.

Definition count_separators (menu : ContextMenu.QMenu) : nat :=
  length (filter ContextMenu.isSeparator menu).

(** The four groups of section 4.3 that have at least one entry. *)
Definition nonempty_groups (c : ContextMenu.Caps) : nat :=
  (Nat.b2n (ContextMenu.canBack c || ContextMenu.canForward c || ContextMenu.canReload c) +
   Nat.b2n (ContextMenu.present (ContextMenu.capLinkUrl c) ||
            ContextMenu.present (ContextMenu.capSelectedText c)) +
   Nat.b2n (ContextMenu.canViewSource c) +
   Nat.b2n (ContextMenu.canInspect c))%nat.

(** Whether the item right behind the standard group of a menu is a
    separator. *)
Definition separator_after_standard_group
    (c : ContextMenu.Caps) (menu : ContextMenu.QMenu) : bool :=
  match nth_error menu (length (ContextMenu.standard_group c)) with
  | Some ContextMenu.Separator => true
  | _ => false
  end.

Definition is_setMessage (c : Backend.Call) : bool :=
  match c with Backend.CallSetMessage _ => true | _ => false end.

Definition touches_count (c : Backend.Call) : bool :=
  match c with
  | Backend.CallSetCount _ | Backend.CallIncrementCount => true
  | _ => false
  end.

Definition is_sendToBackend (c : Backend.Call) : bool :=
  match c with Backend.CallSendToBackend _ => true | _ => false end.

(** A call whose [int] argument is an [int]. *)
Definition well_typed (c : Backend.Call) : bool :=
  match c with
  | Backend.CallSetCount n =>
      (Backend.INT_MIN <=? n)%Z && (n <=? Backend.INT_MAX)%Z
  | _ => true
  end.

(** [countChanged lo+1, ..., countChanged lo+k]. *)
Fixpoint counting (lo : Z) (k : nat) : list Backend.Signal :=
  match k with
  | O => []
  | S k' => Backend.countChanged (lo + 1)%Z :: counting (lo + 1)%Z k'
  end.

End Facts.

(** * Properties *)

(** ** Traces *)

Section TraceLemmas.

Lemma result_bind {A B} (m : IO A) (f : A -> IO B) :
  result (bind m f) = result (f (result m)).
Proof. reflexivity. Qed.

Lemma trace_bind {A B} (m : IO A) (f : A -> IO B) :
  trace (bind m f) = (trace m ++ trace (f (result m)))%list.
Proof. reflexivity. Qed.

Lemma dir_probes_app (t1 t2 : list Event) :
  dir_probes (t1 ++ t2) = (dir_probes t1 ++ dir_probes t2)%list.
Proof.
  induction t1 as [|e t1 IH]; simpl; [reflexivity|].
  destruct e; simpl; rewrite IH; reflexivity.
Qed.

Lemma file_probes_app (t1 t2 : list Event) :
  file_probes (t1 ++ t2) = (file_probes t1 ++ file_probes t2)%list.
Proof.
  induction t1 as [|e t1 IH]; simpl; [reflexivity|].
  destruct e; simpl; rewrite IH; reflexivity.
Qed.

Lemma loaded_urls_app (t1 t2 : list Event) :
  loaded_urls (t1 ++ t2) = (loaded_urls t1 ++ loaded_urls t2)%list.
Proof.
  induction t1 as [|e t1 IH]; simpl; [reflexivity|].
  destruct e; simpl; rewrite IH; reflexivity.
Qed.

End TraceLemmas.

(** ** Frontend Locator *)

Section LocatorLemmas.
Context `{UrlParser}.
Variable env : Env.

Import LocatorSpec.

(** The loop of app_setup.cpp finds the first existing path ... *)
Lemma AppSetup_search_result (paths : list string) :
  result (AppSetup.search env paths) = first_existing (dir_exists env) paths.
Proof.
  induction paths as [|p rest IH]; simpl; [reflexivity|].
  unfold result in *; simpl.
  destruct (dir_exists env p); simpl; [reflexivity | exact IH].
Qed.

(** ... asks about the paths up to that one and no further ... *)
Lemma AppSetup_search_dir_probes (paths : list string) :
  dir_probes (trace (AppSetup.search env paths)) = consulted (dir_exists env) paths.
Proof.
  induction paths as [|p rest IH]; simpl; [reflexivity|].
  unfold trace in *; simpl.
  destruct (dir_exists env p); simpl; [reflexivity | now rewrite IH].
Qed.

(** ... and looks at no file, loads nothing and reports no failure. *)
Lemma AppSetup_search_quiet (paths : list string) :
  file_probes (trace (AppSetup.search env paths)) = [] /\
  loaded_urls (trace (AppSetup.search env paths)) = [] /\
  forall items, ~ In (Log QtCriticalMsg items) (trace (AppSetup.search env paths)).
Proof.
  induction paths as [|p rest IH]; simpl.
  - repeat split; intros items [].
  - unfold trace in *; simpl.
    destruct (dir_exists env p); simpl.
    + repeat split. intros items [E|[E|[]]]; discriminate E.
    + destruct IH as (IH1 & IH2 & IH3). repeat split; try assumption.
      intros items [E|E]; [discriminate E | exact (IH3 items E)].
Qed.

(** The same three facts for the loop of main.cpp. *)
Lemma MainCpp_search_result (paths : list string) :
  result (MainCpp.search env paths) = first_existing (dir_exists env) paths.
Proof.
  induction paths as [|p rest IH]; simpl; [reflexivity|].
  unfold result in *; simpl.
  destruct (dir_exists env p); simpl; [reflexivity | exact IH].
Qed.

Lemma MainCpp_search_dir_probes (paths : list string) :
  dir_probes (trace (MainCpp.search env paths)) = consulted (dir_exists env) paths.
Proof.
  induction paths as [|p rest IH]; simpl; [reflexivity|].
  unfold trace in *; simpl.
  destruct (dir_exists env p); simpl; [reflexivity | now rewrite IH].
Qed.

Lemma MainCpp_search_quiet (paths : list string) :
  file_probes (trace (MainCpp.search env paths)) = [] /\
  loaded_urls (trace (MainCpp.search env paths)) = [].
Proof.
  induction paths as [|p rest IH]; simpl; [split; reflexivity|].
  unfold trace in *; simpl.
  destruct (dir_exists env p); simpl; [split; reflexivity | exact IH].
Qed.

(** The entry-file check of app_setup.cpp, spelled out. *)
Lemma AppSetup_loadIndex_eq (frontendPath : string) :
  AppSetup.loadIndex env frontendPath =
  let indexPath := frontendPath ++ "/index.html" in
  if file_exists env indexPath then
    (QUrl_fromLocalFile indexPath,
     [FileExists indexPath; Log QtInfoMsg ["Loading frontend from:"; indexPath]])
  else
    (QUrl_default,
     [FileExists indexPath;
      missing_index_html indexPath;
      Log QtInfoMsg ["Make sure you've built the frontend with 'npm run frontend:build'"]]).
Proof.
  unfold AppSetup.loadIndex, bind; simpl.
  destruct (file_exists env (frontendPath ++ "/index.html")); reflexivity.
Qed.

(** The entry-file check of main.cpp, spelled out. *)
Lemma MainCpp_loadIndex_eq (frontendPath : string) :
  MainCpp.loadIndex env frontendPath =
  let indexPath := frontendPath ++ "/index.html" in
  if file_exists env indexPath then
    (ReturnExec,
     [FileExists indexPath; Log QtInfoMsg ["Loading frontend from:"; indexPath];
      SetUrl (QUrl_fromLocalFile indexPath); Exec])
  else
    (Return 1,
     [FileExists indexPath;
      missing_index_html indexPath;
      Log QtInfoMsg ["Make sure you've built the frontend with 'npm run frontend:build'"]]).
Proof.
  unfold MainCpp.loadIndex, bind; simpl.
  destruct (file_exists env (frontendPath ++ "/index.html")); reflexivity.
Qed.

End LocatorLemmas.

Section LocatorClaims.
Context `{UrlParser}.
Variable env : Env.

Import LocatorSpec.

Lemma isSet_dev_server (parser : QCommandLineParser) :
  isSet parser "dev-server" = is_some (opt_dev_server parser).
Proof. reflexivity. Qed.

Lemma isSet_frontend_path (parser : QCommandLineParser) :
  isSet parser "frontend-path" = is_some (opt_frontend_path parser).
Proof. reflexivity. Qed.

Lemma QDir_exists_result (path : string) :
  result (QDir_exists env path) = dir_exists env path.
Proof. reflexivity. Qed.

Lemma QDir_exists_trace (path : string) :
  trace (QDir_exists env path) = [DirExists path].
Proof. reflexivity. Qed.

Lemma cands_split :
  probe_sequence (applicationDirPath env) (currentPath env) =
  (applicationDirPath env ++ "/../frontend/dist") :: AppSetup.possiblePaths env.
Proof. reflexivity. Qed.

(** C1.  With neither --dev-server nor --frontend-path given, both
    versions of the locator ask about the six candidate directories in the
    order of the specification and stop at the first one that exists: the
    directories consulted are exactly the candidates up to and including
    that one.  The directory found is the one whose index.html is then
    looked for.  When none of the six exists no file is looked at, the
    "could not find frontend directory" failure is reported, the
    resolution yields the invalid [QUrl()] and [main] returns 1. *)
Theorem C1_probe_order (verbose : bool) (log : option string) :
  let parser := {| opt_verbose := verbose; opt_log := log;
                   opt_dev_server := None; opt_frontend_path := None |} in
  let cands := probe_sequence (applicationDirPath env) (currentPath env) in
  let r := AppSetup.resolveFrontendUrl env parser in
  let m := MainCpp.main env parser in
  dir_probes (trace r) = consulted (dir_exists env) cands /\
  dir_probes (trace m) = consulted (dir_exists env) cands /\
  match first_existing (dir_exists env) cands with
  | Some d =>
      let indexPath := d ++ "/index.html" in
      file_probes (trace r) = [indexPath] /\
      file_probes (trace m) = [indexPath] /\
      result r = (if file_exists env indexPath
                  then QUrl_fromLocalFile indexPath else QUrl_default) /\
      loaded_urls (trace m) = (if file_exists env indexPath
                               then [QUrl_fromLocalFile indexPath] else [])
  | None =>
      file_probes (trace r) = [] /\
      file_probes (trace m) = [] /\
      result r = QUrl_default /\
      In no_frontend_directory (trace r) /\
      result (AppSetup.main env parser) = Return 1 /\
      result m = Return 1 /\
      In no_frontend_directory (trace m)
  end.
Proof.
  intros parser cands r m.
  subst cands. rewrite cands_split.
  set (c0 := applicationDirPath env ++ "/../frontend/dist").
  unfold first_existing. cbn [consulted find].
  subst r m parser.
  unfold AppSetup.main, AppSetup.resolveFrontendUrl, MainCpp.main.
  rewrite !isSet_dev_server, !isSet_frontend_path. cbn [is_some opt_dev_server opt_frontend_path]. fold c0.
  rewrite !result_bind, !trace_bind, !QDir_exists_result, !QDir_exists_trace.
  destruct (dir_exists env c0) eqn:E0; cbn [negb].
  - rewrite AppSetup_loadIndex_eq, MainCpp_loadIndex_eq. cbv zeta.
    destruct (file_exists env (c0 ++ "/index.html")); simpl; repeat split; reflexivity.
  - change (MainCpp.possiblePaths env) with (AppSetup.possiblePaths env).
    set (pp := AppSetup.possiblePaths env). clearbody pp.
    rewrite !result_bind, !trace_bind.
    rewrite !AppSetup_search_result, !MainCpp_search_result.
    rewrite !dir_probes_app, !file_probes_app, !loaded_urls_app.
    rewrite AppSetup_search_dir_probes, MainCpp_search_dir_probes.
    destruct (AppSetup_search_quiet env pp) as (Af & _ & _).
    destruct (MainCpp_search_quiet env pp) as (Mf & Ml).
    rewrite Af, Mf, Ml.
    unfold first_existing.
    destruct (find (dir_exists env) pp) as [d|] eqn:Ef.
    + rewrite AppSetup_loadIndex_eq, MainCpp_loadIndex_eq. cbv zeta.
      destruct (file_exists env (d ++ "/index.html")); simpl;
        rewrite ?app_nil_r; repeat split; reflexivity.
    + simpl. rewrite ?app_nil_r. repeat split; try reflexivity.
      * right. apply in_or_app. right. left. reflexivity.
      * right. right. apply in_or_app. right. left. reflexivity.
Qed.

Lemma value_dev_server (parser : QCommandLineParser) (url : string) :
  opt_dev_server parser = Some url -> value parser "dev-server" = url.
Proof. intros E. unfold value; simpl. now rewrite E. Qed.

Lemma value_frontend_path (parser : QCommandLineParser) (path : string) :
  opt_frontend_path parser = Some path -> value parser "frontend-path" = path.
Proof. intros E. unfold value; simpl. now rewrite E. Qed.

(** Read the two options off a parser given as a record. *)
Ltac read_options parser :=
  unfold AppSetup.main, AppSetup.resolveFrontendUrl, MainCpp.main;
  rewrite ?isSet_frontend_path, ?isSet_dev_server;
  cbn [is_some opt_dev_server opt_frontend_path parser].

(** C2.  Whenever --dev-server was given, whatever else was given with
    it, the resolution is [QUrl(devServerUrl)] and its whole trace is the
    one log line: no directory and no file is looked at, the frontend path
    is not read.  main.cpp loads that URL directly.  Below the dev server
    comes the frontend path: when only it is given, no candidate directory
    is probed. *)
Theorem C2_dev_server_first
    (verbose : bool) (log frontendPath : option string) (devServerUrl : string) :
  let parser := {| opt_verbose := verbose; opt_log := log;
                   opt_dev_server := Some devServerUrl;
                   opt_frontend_path := frontendPath |} in
  AppSetup.resolveFrontendUrl env parser =
    (QUrl_string devServerUrl,
     [Log QtInfoMsg ["Loading frontend from dev server:"; devServerUrl]]) /\
  MainCpp.main env parser =
    (ReturnExec,
     [Log QtInfoMsg ["Loading frontend from dev server:"; devServerUrl];
      SetUrl (QUrl_string devServerUrl); Exec]) /\
  AppSetup.main env parser =
    (if string_valid devServerUrl then
       (ReturnExec,
        [Log QtInfoMsg ["Loading frontend from dev server:"; devServerUrl];
         SetUrl (QUrl_string devServerUrl); Exec])
     else
       (Return 1,
        [Log QtInfoMsg ["Loading frontend from dev server:"; devServerUrl]])) /\
  forall path : string,
    let parser' := {| opt_verbose := verbose; opt_log := log;
                      opt_dev_server := None;
                      opt_frontend_path := Some path |} in
    dir_probes (trace (AppSetup.resolveFrontendUrl env parser')) = [] /\
    dir_probes (trace (MainCpp.main env parser')) = [] /\
    file_probes (trace (AppSetup.resolveFrontendUrl env parser')) =
      [path ++ "/index.html"] /\
    file_probes (trace (MainCpp.main env parser')) = [path ++ "/index.html"].
Proof.
  intros parser. split; [reflexivity | split; [reflexivity | split]].
  { read_options parser.
    rewrite (value_dev_server parser devServerUrl) by reflexivity.
    unfold bind; cbn [fst snd qInfo emit ret isValid app].
    destruct (string_valid devServerUrl); reflexivity. }
  intros path parser'. read_options parser'.
  rewrite (value_frontend_path parser' path) by reflexivity.
  rewrite !trace_bind, AppSetup_loadIndex_eq, MainCpp_loadIndex_eq. cbv zeta.
  destruct (file_exists env (path ++ "/index.html")); repeat split; reflexivity.
Qed.

(** When only --frontend-path is given, app/main.cpp returns 1 exactly when
    the entry file is missing or Qt rejects the file URL built for it. *)
Lemma AppSetup_main_explicit_path
    (verbose : bool) (log : option string) (frontendPath : string) :
  let parser := {| opt_verbose := verbose; opt_log := log;
                   opt_dev_server := None;
                   opt_frontend_path := Some frontendPath |} in
  let indexPath := frontendPath ++ "/index.html" in
  result (AppSetup.main env parser) =
    if file_exists env indexPath && localFile_valid indexPath
    then ReturnExec else Return 1.
Proof.
  intros parser indexPath. read_options parser.
  rewrite (value_frontend_path parser frontendPath) by reflexivity.
  rewrite !result_bind, AppSetup_loadIndex_eq. cbv zeta. fold indexPath.
  destruct (file_exists env indexPath); cbn [result fst isValid andb negb];
    [destruct (localFile_valid indexPath)|]; reflexivity.
Qed.

(** C3, as the code has it.  With --frontend-path given and --dev-server
    not, no directory is asked about: the one file-system question is
    whether [frontendPath/index.html] exists.  The resolution is the file
    URL of that entry file when it exists and the invalid [QUrl()] when it
    does not, and main.cpp returns 1 exactly when it does not exist.
    app/main.cpp tests [isValid()] on the resolution, so it returns 1
    exactly when the entry file does not exist or Qt does not hold the
    file URL built for it valid. *)
Theorem C3_explicit_frontend_path
    (verbose : bool) (log : option string) (frontendPath : string) :
  let parser := {| opt_verbose := verbose; opt_log := log;
                   opt_dev_server := None;
                   opt_frontend_path := Some frontendPath |} in
  let indexPath := frontendPath ++ "/index.html" in
  let r := AppSetup.resolveFrontendUrl env parser in
  let m := MainCpp.main env parser in
  dir_probes (trace r) = [] /\
  dir_probes (trace m) = [] /\
  file_probes (trace r) = [indexPath] /\
  file_probes (trace m) = [indexPath] /\
  result r = (if file_exists env indexPath
              then QUrl_fromLocalFile indexPath else QUrl_default) /\
  (result m = Return 1 <-> file_exists env indexPath = false) /\
  (result (AppSetup.main env parser) = Return 1 <->
   file_exists env indexPath = false \/ localFile_valid indexPath = false).
Proof.
  intros parser indexPath r m.
  pose proof (AppSetup_main_explicit_path verbose log frontendPath) as Hmain.
  cbv zeta in Hmain. fold parser indexPath in Hmain. rewrite Hmain.
  subst r m. read_options parser.
  rewrite (value_frontend_path parser frontendPath) by reflexivity.
  rewrite !trace_bind, !result_bind, AppSetup_loadIndex_eq, MainCpp_loadIndex_eq.
  cbv zeta. fold indexPath.
  destruct (file_exists env indexPath); cbn [andb];
    [destruct (localFile_valid indexPath)|].
  all: cbn [result trace fst snd app dir_probes file_probes
            LocatorSpec.missing_index_html].
  all: split; [reflexivity|]; split; [reflexivity|];
       split; [reflexivity|]; split; [reflexivity|];
       split; [reflexivity|]; split; split.
  all: try reflexivity.
  all: try (let X := fresh in intros X; discriminate X).
  all: try (let X := fresh in intros [X|X]; discriminate X).
  all: try (intros _; left; reflexivity).
  all: try (intros _; right; reflexivity).
Qed.

End LocatorClaims.

(** *** The locator on concrete inputs *)

(** The fixture of section 8: three directories are asked about, the
    third is taken, the remaining three are never consulted. *)
Example third_candidate_resolution :
  AppSetup.resolveFrontendUrl Sample.third_candidate_env Sample.no_options =
  (QUrl_fromLocalFile "/home/dev/app/frontend/dist/index.html",
   [DirExists "/opt/taqyon/bin/../frontend/dist";
    DirExists "/opt/taqyon/bin/frontend/dist";
    DirExists "/home/dev/app/frontend/dist";
    Log QtInfoMsg ["Found frontend at:"; "/home/dev/app/frontend/dist"];
    FileExists "/home/dev/app/frontend/dist/index.html";
    Log QtInfoMsg ["Loading frontend from:";
                   "/home/dev/app/frontend/dist/index.html"]]).
Proof. reflexivity. Qed.

Example third_candidate_main_cpp :
  result (MainCpp.main Sample.third_candidate_env Sample.no_options) = ReturnExec /\
  dir_probes (trace (MainCpp.main Sample.third_candidate_env Sample.no_options)) =
    ["/opt/taqyon/bin/../frontend/dist";
     "/opt/taqyon/bin/frontend/dist";
     "/home/dev/app/frontend/dist"] /\
  loaded_urls (trace (MainCpp.main Sample.third_candidate_env Sample.no_options)) =
    [QUrl_fromLocalFile "/home/dev/app/frontend/dist/index.html"].
Proof. repeat split. Qed.

Example nothing_on_disk :
  result (AppSetup.main Sample.empty_env Sample.no_options) = Return 1 /\
  result (MainCpp.main Sample.empty_env Sample.no_options) = Return 1 /\
  dir_probes (trace (AppSetup.main Sample.empty_env Sample.no_options)) =
    LocatorSpec.probe_sequence "/opt/taqyon/bin" "/home/dev/app".
Proof. repeat split. Qed.

(** C3, counterexample to "app/main.cpp exits with code 1 exactly when
    index.html does not exist": with [--frontend-path //[] the entry file
    is there, Qt turns its path into an invalid URL, and app/main.cpp
    returns 1. *)
Lemma C3_counterexample :
  ~ (result (AppSetup.main (H := Sample.bracket_parser) Sample.bracket_env
               {| opt_verbose := false; opt_log := None;
                  opt_dev_server := None;
                  opt_frontend_path := Some "//[" |}) = Return 1
     <-> file_exists Sample.bracket_env "//[/index.html" = false).
Proof.
  intros [Hexit _]. specialize (Hexit eq_refl). discriminate Hexit.
Qed.

(** ** Navigation Policy *)

Section NavigationClaims.
Context `{UrlParser}.
Import Navigation.

Lemma NavigationType_eqb_spec (a b : NavigationType) :
  reflect (a = b) (NavigationType_eqb a b).
Proof. destruct a, b; constructor; congruence. Qed.

(** C4.  Whatever the base class decides, [acceptNavigationRequest] hands
    the URL to the desktop and refuses the in-app navigation exactly when
    the request is on the main frame, is a link click and has scheme http
    or https.  Every other request is what the base class makes of it,
    with nothing handed to the desktop; with the base class accepting
    (Qt's default) such a request proceeds in the renderer. *)
Theorem C4_navigation_policy
    (base : QUrl -> NavigationType -> bool -> bool)
    (url : QUrl) (type : NavigationType) (isMainFrame : bool) :
  let r := acceptNavigationRequest base url type isMainFrame in
  let isUserLinkClick := NavigationType_eqb type NavigationTypeLinkClicked in
  let intercept :=
    shouldInterceptNavigation (scheme url) isMainFrame isUserLinkClick in
  (intercepted url r <->
   isMainFrame = true /\ type = NavigationTypeLinkClicked /\
   (scheme url = "http" \/ scheme url = "https")) /\
  r = (if intercept then
         (false,
          [Log QtInfoMsg ["Intercepted link click to:"; toString url;
                          ". Opening externally."];
           OpenUrl url])
       else (base url type isMainFrame, [])) /\
  result (acceptNavigationRequest (fun _ _ _ => true) url type isMainFrame) =
    negb intercept.
Proof.
  intros r isUserLinkClick intercept.
  subst r isUserLinkClick intercept.
  unfold acceptNavigationRequest, shouldInterceptNavigation, intercepted.
  destruct (NavigationType_eqb_spec type NavigationTypeLinkClicked) as [Et|Et];
    destruct isMainFrame;
    destruct (String.eqb_spec (scheme url) "http") as [Eh|Eh];
    destruct (String.eqb_spec (scheme url) "https") as [Es|Es];
    cbn; (split; [split|split; reflexivity]).
  all: try (intros _; split; [reflexivity | right; left; reflexivity]).
  all: try (intros _; repeat split; auto; fail).
  all: try (intros (_ & []); fail).
  all: try (intros (E1 & E2 & [E3|E3]); congruence).
  all: try (intros (_ & [Ein|[Ein|[]]]); discriminate Ein).

Qed.

End NavigationClaims.

(** The three requests listed in section 8, run with the sample parser. *)
Example navigation_examples :
  let base := fun (_ : QUrl) (_ : Navigation.NavigationType) (_ : bool) => true in
  result (Navigation.acceptNavigationRequest base
            (QUrl_string "https://example.com")
            Navigation.NavigationTypeLinkClicked true) = false /\
  result (Navigation.acceptNavigationRequest base
            (QUrl_string "https://example.com")
            Navigation.NavigationTypeLinkClicked false) = true /\
  result (Navigation.acceptNavigationRequest base
            (QUrl_fromLocalFile "/x/index.html")
            Navigation.NavigationTypeLinkClicked true) = true.
Proof. repeat split. Qed.

(** ** Context Menu Builder *)

Section ContextMenuClaims.
Context `{UrlParser}.
Import ContextMenu.

(** The handler builds the menu of section 4.3 for the capabilities it
    reads, and falls back to the base class when that menu is empty. *)
Lemma contextMenuEvent_build
    (request : QWebEngineContextMenuRequest) (page : QWebEnginePage) :
  contextMenuEvent (Some request) (Some page) =
  show (build (capabilities request page)).
Proof.
  unfold contextMenuEvent, build, capabilities, standard_group,
    standard_separator, custom_group, view_source_group, inspect_group.
  cbn [canBack canForward canReload capLinkUrl capSelectedText
       canViewSource canInspect].
  destruct (enabled (action page Back)),
           (enabled (action page Forward)),
           (enabled (action page Reload)),
           (isEmpty (linkUrl request)),
           (QString_isEmpty (selectedText request)),
           (enabled (action page ViewSource)),
           (enabled (action page InspectElement)); reflexivity.
Qed.

(** Leaving the separators out, the menu is the seven entries in their
    fixed order, each there iff its capability holds. *)
Lemma build_entries (c : Caps) : entries (build c) = expected_entries c.
Proof.
  destruct c as [b f r l t v i].
  destruct b, f, r, l, t, v, i; reflexivity.
Qed.

(** No separator leads or trails the menu and no two are adjacent. *)
Lemma build_well_separated (c : Caps) : well_separated (build c) = true.
Proof.
  destruct c as [b f r l t v i].
  destruct b, f, r, l, t, v, i; reflexivity.
Qed.

(** C9, as the code has it.  The menu shown is the standard group, the
    separator that closes it, the link and copy entries, and the
    view-source and inspect groups, in that order.  Its entries are Back,
    Forward, Reload, Open Link in External Browser, Copy, View Source,
    Inspect Element, each present iff its capability holds; separators
    stand only between entries.  A separator is the item right behind the
    Back/Forward/Reload group exactly when that group is non-empty and
    something follows it: a link URL, a selected text, View Source or
    Inspect Element.  The separator added ahead of the link and copy
    entries is there iff the group is non-empty and a link URL or a
    selected text is present.  With a link URL alone the menu is the
    single Open Link entry. *)
Theorem C9_context_menu
    (request : QWebEngineContextMenuRequest) (page : QWebEnginePage) :
  let c := capabilities request page in
  contextMenuEvent (Some request) (Some page) =
    show (standard_group c ++ standard_separator c ++ custom_group c ++
          view_source_group c ++ inspect_group c)%list /\
  entries (build c) = expected_entries c /\
  well_separated (build c) = true /\
  Facts.separator_after_standard_group c (build c) =
    nonempty (standard_group c) &&
    (negb (isEmpty (linkUrl request)) ||
     negb (QString_isEmpty (selectedText request)) ||
     enabled (action page ViewSource) ||
     enabled (action page InspectElement)) /\
  standard_separator c =
    (if nonempty (standard_group c) &&
        (negb (isEmpty (linkUrl request)) ||
         negb (QString_isEmpty (selectedText request)))
     then [Separator] else []) /\
  (enabled (action page Back) = false /\
   enabled (action page Forward) = false /\
   enabled (action page Reload) = false /\
   isEmpty (linkUrl request) = false /\
   QString_isEmpty (selectedText request) = true /\
   enabled (action page ViewSource) = false /\
   enabled (action page InspectElement) = false ->
   contextMenuEvent (Some request) (Some page) =
     MenuExec [OpenLinkInExternalBrowser (linkUrl request)]).
Proof.
  intros c. split; [apply contextMenuEvent_build|].
  split; [apply build_entries|].
  split; [apply build_well_separated|].
  split.
  { subst c.
    unfold Facts.separator_after_standard_group, build, capabilities,
      standard_group, standard_separator, custom_group, view_source_group,
      inspect_group.
    cbn [canBack canForward canReload capLinkUrl capSelectedText
         canViewSource canInspect].
    destruct (enabled (action page Back)),
             (enabled (action page Forward)),
             (enabled (action page Reload)),
             (isEmpty (linkUrl request)),
             (QString_isEmpty (selectedText request)),
             (enabled (action page ViewSource)),
             (enabled (action page InspectElement)); reflexivity. }
  split.
  - subst c. unfold standard_separator, capabilities, when.
    cbn [capLinkUrl capSelectedText].
    destruct (isEmpty (linkUrl request)),
             (QString_isEmpty (selectedText request)); reflexivity.
  - intros (Eb & Ef & Er & El & Et & Ev & Ei).
    rewrite contextMenuEvent_build. subst c.
    unfold build, capabilities, standard_group, standard_separator,
      custom_group, view_source_group, inspect_group.
    cbn [canBack canForward canReload capLinkUrl capSelectedText
         canViewSource canInspect].
    rewrite Eb, Ef, Er, El, Et, Ev, Ei. reflexivity.
Qed.

End ContextMenuClaims.

(** The example of section 8, with the sample parser: a link under the
    cursor and nothing else. *)
Lemma C9_context_menu_witness :
  ContextMenu.contextMenuEvent
    (Some {| ContextMenu.linkUrl := QUrl_string "http://a";
             ContextMenu.selectedText := EmptyString |})
    (Some {| ContextMenu.action := fun _ =>
               Some {| ContextMenu.isEnabled := false |} |}) =
  ContextMenu.MenuExec
    [ContextMenu.OpenLinkInExternalBrowser (QUrl_string "http://a")].
Proof.
  apply (C9_context_menu
           {| ContextMenu.linkUrl := QUrl_string "http://a";
              ContextMenu.selectedText := EmptyString |}
           {| ContextMenu.action := fun _ =>
                Some {| ContextMenu.isEnabled := false |} |}).
  repeat split.
Defined.

(** C9, counterexample to "a separator follows the Back/Forward/Reload
    group only if a link URL or a selected text is present": with Back
    and View Source enabled and neither of the two, the menu is Back,
    separator, View Source. *)
Lemma C9_counterexample :
  ContextMenu.contextMenuEvent
    (Some {| ContextMenu.linkUrl := QUrl_default;
             ContextMenu.selectedText := EmptyString |})
    (Some {| ContextMenu.action := fun a =>
               match a with
               | ContextMenu.Back | ContextMenu.ViewSource =>
                   Some {| ContextMenu.isEnabled := true |}
               | _ => Some {| ContextMenu.isEnabled := false |}
               end |}) =
  ContextMenu.MenuExec
    [ContextMenu.PageAction ContextMenu.Back; ContextMenu.Separator;
     ContextMenu.PageAction ContextMenu.ViewSource] /\
  nth_error
    [ContextMenu.PageAction ContextMenu.Back; ContextMenu.Separator;
     ContextMenu.PageAction ContextMenu.ViewSource] 1 =
    Some ContextMenu.Separator /\
  isEmpty QUrl_default = true /\
  ContextMenu.QString_isEmpty EmptyString = true.
Proof. repeat split. Qed.

(** Back enabled and an active selection: the separator closes the
    standard group. *)
Example context_menu_back_and_copy :
  ContextMenu.contextMenuEvent
    (Some {| ContextMenu.linkUrl := QUrl_default;
             ContextMenu.selectedText := "text" |})
    (Some {| ContextMenu.action := fun a =>
               match a with
               | ContextMenu.Back => Some {| ContextMenu.isEnabled := true |}
               | _ => None
               end |}) =
  ContextMenu.MenuExec
    [ContextMenu.PageAction ContextMenu.Back; ContextMenu.Separator;
     ContextMenu.Copy "text"].
Proof. reflexivity. Qed.

(** Everything enabled. *)
Example context_menu_full :
  ContextMenu.contextMenuEvent
    (Some {| ContextMenu.linkUrl := QUrl_string "http://a";
             ContextMenu.selectedText := "text" |})
    (Some {| ContextMenu.action := fun _ =>
               Some {| ContextMenu.isEnabled := true |} |}) =
  ContextMenu.MenuExec
    [ContextMenu.PageAction ContextMenu.Back;
     ContextMenu.PageAction ContextMenu.Forward;
     ContextMenu.PageAction ContextMenu.Reload;
     ContextMenu.Separator;
     ContextMenu.OpenLinkInExternalBrowser (QUrl_string "http://a");
     ContextMenu.Copy "text";
     ContextMenu.Separator;
     ContextMenu.PageAction ContextMenu.ViewSource;
     ContextMenu.Separator;
     ContextMenu.PageAction ContextMenu.InspectElement].
Proof. reflexivity. Qed.

(** Nothing to offer: the base class handles the event. *)
Example context_menu_empty :
  ContextMenu.contextMenuEvent
    (Some {| ContextMenu.linkUrl := QUrl_default;
             ContextMenu.selectedText := EmptyString |})
    (Some {| ContextMenu.action := fun _ => None |}) =
  ContextMenu.QWebEngineView_contextMenuEvent.
Proof. reflexivity. Qed.

(** ** Bridge Object *)

Section BackendClaims.
Import Backend.
Open Scope Z_scope.

Lemma append_empty_r (s : string) : (s ++ EmptyString)%string = s.
Proof. induction s as [|c s IH]; simpl; [reflexivity | now rewrite IH]. Qed.

(** The format of [sendToBackend], filled in. *)
Lemma QString_arg_received (text : string) :
  QString_arg "Backend received: %1" text = ("Backend received: " ++ text)%string.
Proof. simpl. now rewrite append_empty_r. Qed.

(** What observers see of [setCount] and [setMessage]. *)
Lemma setCount_notifications (n : Z) (self : BackendObject) :
  notifications (snd (setCount n self)) =
  if m_count self =? n then [] else [countChanged n].
Proof. unfold setCount. destruct (m_count self =? n); reflexivity. Qed.

Lemma setMessage_notifications (msg : string) (self : BackendObject) :
  notifications (snd (setMessage msg self)) =
  if (m_message self =? msg)%string then [] else [messageChanged msg].
Proof. unfold setMessage. destruct (m_message self =? msg)%string; reflexivity. Qed.

(** After [setCount n] the counter is [n]. *)
Lemma setCount_count (n : Z) (self : BackendObject) :
  m_count (fst (setCount n self)) = n.
Proof.
  unfold setCount. destruct (Z.eqb_spec (m_count self) n); simpl; congruence.
Qed.

Lemma notifications_app (e1 e2 : list Effect) :
  notifications (e1 ++ e2) = (notifications e1 ++ notifications e2)%list.
Proof.
  induction e1 as [|e e1 IH]; simpl; [reflexivity|].
  destruct e; simpl; now rewrite IH.
Qed.

(** Below [INT_MAX] the addition of the code is the addition of integers. *)
Lemma int_add_1_no_overflow (a : Z) :
  INT_MIN <= a -> a < INT_MAX -> int_add a 1 = a + 1.
Proof.
  unfold int_add, to_int, INT_MIN, INT_MAX. intros Hlo Hhi.
  rewrite Z.mod_small; lia.
Qed.

(** C5, as the code has it.  [setCount n] emits exactly one
    [countChanged] (carrying [n]) when [n] differs from the current count
    and no signal when it equals it; [setMessage m] likewise with
    [messageChanged].  Two calls of [setCount 5] in a row emit one signal
    in total from a state whose count is not 5, and none from a state
    whose count is 5 already. *)
Theorem C5_change_notifications (self : BackendObject) (n : Z) (msg : string) :
  notifications (snd (setCount n self)) =
    (if m_count self =? n then [] else [countChanged n]) /\
  notifications (snd (setMessage msg self)) =
    (if (m_message self =? msg)%string then [] else [messageChanged msg]) /\
  notifications (snd (run [CallSetCount 5; CallSetCount 5] self)) =
    (if m_count self =? 5 then [] else [countChanged 5]).
Proof.
  split; [apply setCount_notifications|].
  split; [apply setMessage_notifications|].
  cbn [run invoke fst snd].
  rewrite !notifications_app, !setCount_notifications, setCount_count.
  rewrite Z.eqb_refl. cbn [notifications].
  destruct (m_count self =? 5); reflexivity.
Qed.

(** C5, counterexample to "exactly one from any state": from a state
    whose count is 5 the two calls emit nothing. *)
Lemma C5_counterexample :
  length (notifications
            (snd (run [CallSetCount 5; CallSetCount 5]
                    {| m_message := "Hello from C++ backend!"; m_count := 5 |})))
  <> 1%nat.
Proof. cbn. discriminate. Qed.

(** C6.  [incrementCount] leaves the object in the state [setCount] of
    the current count plus one leaves it in, and emits the same signals
    (it logs one line more).  Below [INT_MAX] that sum is the integer
    successor.  From count 5 the count becomes 6 and one [countChanged 6]
    is emitted. *)
Theorem C6_incrementCount_is_setCount_succ (self : BackendObject) :
  fst (incrementCount self) = fst (setCount (int_add (m_count self) 1) self) /\
  notifications (snd (incrementCount self)) =
    notifications (snd (setCount (int_add (m_count self) 1) self)) /\
  (INT_MIN <= m_count self -> m_count self < INT_MAX ->
   fst (incrementCount self) = fst (setCount (m_count self + 1) self) /\
   notifications (snd (incrementCount self)) =
     notifications (snd (setCount (m_count self + 1) self))) /\
  (m_count self = 5 ->
   m_count (fst (incrementCount self)) = 6 /\
   m_message (fst (incrementCount self)) = m_message self /\
   notifications (snd (incrementCount self)) = [countChanged 6]).
Proof.
  split; [reflexivity|]. split; [reflexivity|]. split.
  - intros Hlo Hhi. unfold incrementCount. cbn [fst snd notifications].
    rewrite int_add_1_no_overflow by assumption. split; reflexivity.
  - intros E. unfold incrementCount, setCount. rewrite E. cbn.
    repeat split; reflexivity.
Qed.

(** C7.  [sendToBackend text] returns the object as it was and emits the
    one signal [sendToFrontend] with "Backend received: " followed by the
    text. *)
Theorem C7_sendToBackend_frame (self : BackendObject) (text : string) :
  sendToBackend text self =
    (self, [Emit (sendToFrontend ("Backend received: " ++ text)%string)]) /\
  m_message (fst (sendToBackend text self)) = m_message self /\
  m_count (fst (sendToBackend text self)) = m_count self /\
  notifications (snd (sendToBackend text self)) =
    [sendToFrontend ("Backend received: " ++ text)%string].
Proof.
  unfold sendToBackend. rewrite QString_arg_received. repeat split.
Qed.

(** One admissible call keeps the counter between 0 and [INT_MAX]. *)
Lemma invoke_keeps_count_natural (c : Call) (self : BackendObject) :
  0 <= m_count self <= INT_MAX ->
  keeps_count_natural c self = true ->
  0 <= m_count (fst (invoke c self)) <= INT_MAX.
Proof.
  intros Hself Hc. destruct c as [msg | n | | text]; cbn [invoke].
  - unfold setMessage. destruct (negb (m_message self =? msg)%string); exact Hself.
  - rewrite setCount_count. cbn [keeps_count_natural] in Hc.
    apply andb_true_iff in Hc. destruct Hc as [H0 H1].
    apply Z.leb_le in H0. apply Z.leb_le in H1. lia.
  - unfold incrementCount. cbn [fst]. rewrite setCount_count.
    cbn [keeps_count_natural] in Hc. apply Z.ltb_lt in Hc.
    rewrite int_add_1_no_overflow; unfold INT_MIN, INT_MAX in *; lia.
  - exact Hself.
Qed.

Lemma run_keeps_count_natural (calls : list Call) :
  forall self : BackendObject,
    0 <= m_count self <= INT_MAX ->
    all_keep_count_natural calls self = true ->
    0 <= m_count (fst (run calls self)) <= INT_MAX.
Proof.
  induction calls as [|c rest IH]; intros self Hself Hall.
  - exact Hself.
  - cbn [all_keep_count_natural] in Hall.
    apply andb_true_iff in Hall. destruct Hall as [Hc Hrest].
    cbn [run fst]. apply IH; [|exact Hrest].
    apply invoke_keeps_count_natural; assumption.
Qed.

(** C8, as the code has it.  Starting from construction, every sequence
    of calls in which [setCount] is given values between 0 and [INT_MAX]
    and [incrementCount] is called below [INT_MAX] leaves the counter
    between 0 and [INT_MAX]. *)
Theorem C8_count_natural_when_fed_naturals (calls : list Call) :
  all_keep_count_natural calls BackendObject_new = true ->
  0 <= m_count (fst (run calls BackendObject_new)) <= INT_MAX.
Proof.
  apply run_keeps_count_natural. unfold INT_MAX. cbn. lia.
Qed.

(** C8, counterexample to "count >= 0 in every reachable state":
    [setCount] stores the negative value it is given. *)
Lemma C8_counterexample :
  m_count (fst (run [CallSetCount (-1)] BackendObject_new)) < 0.
Proof. cbn. lia. Qed.

(** C10.  A new object holds the greeting and the count 0.  A first
    [setMessage] or [setCount] with another value emits its signal; a
    first [setCount 0] emits none. *)
Theorem C10_initial_state :
  m_message BackendObject_new = "Hello from C++ backend!"%string /\
  m_count BackendObject_new = 0 /\
  (forall msg : string,
     msg <> "Hello from C++ backend!"%string ->
     setMessage msg BackendObject_new =
       ({| m_message := msg; m_count := 0 |}, [Emit (messageChanged msg)])) /\
  (forall n : Z,
     n <> 0 ->
     notifications (snd (setCount n BackendObject_new)) = [countChanged n] /\
     fst (setCount n BackendObject_new) =
       {| m_message := "Hello from C++ backend!"; m_count := n |}) /\
  notifications (snd (setCount 0 BackendObject_new)) = [] /\
  fst (setCount 0 BackendObject_new) = BackendObject_new.
Proof.
  split; [reflexivity|]. split; [reflexivity|]. split; [|split; [|split]].
  - intros msg Hmsg. unfold setMessage. cbn [m_message BackendObject_new].
    destruct (String.eqb_spec "Hello from C++ backend!" msg) as [E|E];
      [congruence | reflexivity].
  - intros n Hn. unfold setCount. cbn [m_count BackendObject_new].
    destruct (Z.eqb_spec 0 n) as [E|E]; [congruence | split; reflexivity].
  - reflexivity.
  - reflexivity.
Qed.

End BackendClaims.

(** *** The bridge object on concrete inputs *)

(** C6 at an object whose count is 5. *)
Lemma C6_incrementCount_is_setCount_succ_witness :
  (Backend.INT_MIN <= 5 /\ 5 < Backend.INT_MAX)%Z /\
  fst (Backend.incrementCount {| Backend.m_message := "m"; Backend.m_count := 5 |})
    = fst (Backend.setCount 6 {| Backend.m_message := "m"; Backend.m_count := 5 |}) /\
  Backend.m_count
    (fst (Backend.incrementCount {| Backend.m_message := "m"; Backend.m_count := 5 |}))
    = 6%Z /\
  Backend.notifications
    (snd (Backend.incrementCount {| Backend.m_message := "m"; Backend.m_count := 5 |}))
    = [Backend.countChanged 6].
Proof.
  assert (Hlo : (Backend.INT_MIN <= 5)%Z) by (vm_compute; discriminate).
  assert (Hhi : (5 < Backend.INT_MAX)%Z) by reflexivity.
  destruct (C6_incrementCount_is_setCount_succ
              {| Backend.m_message := "m"; Backend.m_count := 5 |})
    as (_ & _ & Hsucc & Hfive).
  destruct (Hsucc Hlo Hhi) as (Hstate & _).
  destruct (Hfive eq_refl) as (Hcount & _ & Hsignals).
  split; [exact (conj Hlo Hhi)|].
  split; [exact Hstate|]. split; [exact Hcount | exact Hsignals].
Defined.

(** C8 on a run that only feeds the counter naturals. *)
Lemma C8_count_natural_when_fed_naturals_witness :
  Backend.all_keep_count_natural
    [Backend.CallSetCount 5; Backend.CallIncrementCount;
     Backend.CallSendToBackend "ping"; Backend.CallSetMessage "hi"]
    Backend.BackendObject_new = true /\
  (0 <= Backend.m_count
          (fst (Backend.run
                  [Backend.CallSetCount 5; Backend.CallIncrementCount;
                   Backend.CallSendToBackend "ping"; Backend.CallSetMessage "hi"]
                  Backend.BackendObject_new))
     <= Backend.INT_MAX)%Z.
Proof.
  split; [reflexivity|].
  apply (C8_count_natural_when_fed_naturals
           [Backend.CallSetCount 5; Backend.CallIncrementCount;
            Backend.CallSendToBackend "ping"; Backend.CallSetMessage "hi"]).
  reflexivity.
Defined.

(** C10 at the first calls [setMessage "hi"] and [setCount 7]. *)
Lemma C10_initial_state_witness :
  "hi" <> "Hello from C++ backend!" /\
  (7 <> 0)%Z /\
  Backend.setMessage "hi" Backend.BackendObject_new =
    ({| Backend.m_message := "hi"; Backend.m_count := 0 |},
     [Backend.Emit (Backend.messageChanged "hi")]) /\
  Backend.notifications (snd (Backend.setCount 7 Backend.BackendObject_new)) =
    [Backend.countChanged 7].
Proof.
  assert (Hmsg : "hi" <> "Hello from C++ backend!") by discriminate.
  assert (Hn : (7 <> 0)%Z) by discriminate.
  destruct C10_initial_state as (_ & _ & HsetMessage & HsetCount & _).
  destruct (HsetCount 7%Z Hn) as (Hsignals & _).
  split; [exact Hmsg|]. split; [exact Hn|].
  split; [exact (HsetMessage "hi" Hmsg) | exact Hsignals].
Defined.

(** The sequence of section 8: [setCount 5] twice on a new object, then
    [incrementCount]. *)
Example bridge_session :
  Backend.run
    [Backend.CallSetCount 5; Backend.CallSetCount 5; Backend.CallIncrementCount]
    Backend.BackendObject_new =
  ({| Backend.m_message := "Hello from C++ backend!"; Backend.m_count := 6 |},
   [Backend.Info "Backend received setCount with value:" 5;
    Backend.Emit (Backend.countChanged 5);
    Backend.Info "Backend received setCount with value:" 5;
    Backend.Info "Backend incrementCount called, current count:" 5;
    Backend.Info "Backend received setCount with value:" 6;
    Backend.Emit (Backend.countChanged 6)]).
Proof. reflexivity. Qed.

(** * Further properties of the code *)

(** ** The locator in all three modes *)

Section LocatorShape.
Context `{UrlParser}.
Variable env : Env.

Import LocatorSpec Facts.

Lemma reported_failure_app (t1 t2 : list Event) :
  reported_failure (t1 ++ t2) = reported_failure t1 || reported_failure t2.
Proof. apply existsb_app. Qed.

Lemma entered_event_loop_app (t1 t2 : list Event) :
  entered_event_loop (t1 ++ t2) = entered_event_loop t1 || entered_event_loop t2.
Proof. apply existsb_app. Qed.

Lemma quiet_app (t1 t2 : list Event) : quiet t1 -> quiet t2 -> quiet (t1 ++ t2).
Proof.
  intros (F1 & L1 & R1 & E1) (F2 & L2 & R2 & E2). unfold quiet.
  rewrite file_probes_app, loaded_urls_app, reported_failure_app,
    entered_event_loop_app, F1, F2, L1, L2, R1, R2, E1, E2.
  repeat split.
Qed.

Lemma AppSetup_search_is_quiet (paths : list string) :
  quiet (trace (AppSetup.search env paths)).
Proof.
  induction paths as [|p rest IH]; [repeat split|].
  cbn [AppSetup.search]. rewrite trace_bind.
  apply quiet_app; [repeat split|].
  rewrite QDir_exists_result.
  destruct (dir_exists env p); [repeat split | exact IH].
Qed.

Lemma MainCpp_search_is_quiet (paths : list string) :
  quiet (trace (MainCpp.search env paths)).
Proof.
  induction paths as [|p rest IH]; [repeat split|].
  cbn [MainCpp.search]. rewrite !trace_bind.
  apply quiet_app; [repeat split|]. apply quiet_app; [repeat split|].
  rewrite QDir_exists_result.
  destruct (dir_exists env p); [repeat split | exact IH].
Qed.

Lemma fst_bind {A B} (m : IO A) (f : A -> IO B) :
  fst (bind m f) = fst (f (fst m)).
Proof. reflexivity. Qed.

Lemma snd_bind {A B} (m : IO A) (f : A -> IO B) :
  snd (bind m f) = (snd m ++ snd (f (fst m)))%list.
Proof. reflexivity. Qed.

Lemma QDir_exists_eq (path : string) :
  QDir_exists env path = (dir_exists env path, [DirExists path]).
Proof. reflexivity. Qed.

(** [resolveFrontendUrl] in its three modes: what it returns and what its
    trace is made of. *)
Lemma resolveFrontendUrl_shape (parser : QCommandLineParser) :
  let r := AppSetup.resolveFrontendUrl env parser in
  let cands := probe_sequence (applicationDirPath env) (currentPath env) in
  match opt_dev_server parser with
  | Some url =>
      r = (QUrl_string url,
           [Log QtInfoMsg ["Loading frontend from dev server:"; url]])
  | None =>
      match opt_frontend_path parser with
      | Some path =>
          r = (fst (AppSetup.loadIndex env path),
               Log QtInfoMsg ["Using provided frontend path:"; path]
               :: snd (AppSetup.loadIndex env path))
      | None =>
          exists pre,
            quiet pre /\
            dir_probes pre = consulted (dir_exists env) cands /\
            match first_existing (dir_exists env) cands with
            | Some d =>
                r = (fst (AppSetup.loadIndex env d),
                     (pre ++ snd (AppSetup.loadIndex env d))%list)
            | None =>
                r = (QUrl_default,
                     (pre ++
                      [no_frontend_directory;
                       Log QtInfoMsg
                         ["Please specify the frontend path with --frontend-path option."]])%list)
            end
      end
  end.
Proof.
  intros r cands. subst r.
  unfold AppSetup.resolveFrontendUrl.
  rewrite isSet_dev_server, isSet_frontend_path.
  destruct (opt_dev_server parser) as [url|] eqn:Ed; cbn [is_some].
  { rewrite (value_dev_server parser url Ed). reflexivity. }
  destruct (opt_frontend_path parser) as [path|] eqn:Ep; cbn [is_some].
  { rewrite (value_frontend_path parser path Ep). reflexivity. }
  subst cands. rewrite (cands_split env).
  set (c0 := applicationDirPath env ++ "/../frontend/dist").
  set (pp := AppSetup.possiblePaths env). clearbody pp.
  unfold first_existing. cbn [consulted find].
  destruct (dir_exists env c0) eqn:E0.
  - exists [DirExists c0]. split; [repeat split|]. split; [reflexivity|].
    rewrite QDir_exists_eq, E0. reflexivity.
  - exists (DirExists c0 :: trace (AppSetup.search env pp)).
    split; [apply (quiet_app [DirExists c0]);
            [repeat split | apply AppSetup_search_is_quiet]|].
    split; [cbn [dir_probes]; now rewrite AppSetup_search_dir_probes|].
    pose proof (AppSetup_search_result env pp) as Hres.
    unfold first_existing, result in Hres.
    destruct (find (dir_exists env) pp) as [d|];
      apply injective_projections; cbn [fst snd];
      rewrite ?fst_bind, ?snd_bind, QDir_exists_eq; cbn [fst snd];
      rewrite E0; cbn [negb];
      rewrite ?fst_bind, ?snd_bind, Hres; reflexivity.
Qed.

(** The same for the inlined locator of main.cpp. *)
Lemma MainCpp_main_shape (parser : QCommandLineParser) :
  let m := MainCpp.main env parser in
  let cands := probe_sequence (applicationDirPath env) (currentPath env) in
  match opt_dev_server parser with
  | Some url =>
      m = (ReturnExec,
           [Log QtInfoMsg ["Loading frontend from dev server:"; url];
            SetUrl (QUrl_string url); Exec])
  | None =>
      match opt_frontend_path parser with
      | Some path =>
          m = (fst (MainCpp.loadIndex env path),
               Log QtInfoMsg ["Using provided frontend path:"; path]
               :: snd (MainCpp.loadIndex env path))
      | None =>
          exists pre,
            quiet pre /\
            dir_probes pre = consulted (dir_exists env) cands /\
            match first_existing (dir_exists env) cands with
            | Some d =>
                m = (fst (MainCpp.loadIndex env d),
                     (pre ++ snd (MainCpp.loadIndex env d))%list)
            | None =>
                m = (Return 1,
                     (pre ++
                      [no_frontend_directory;
                       Log QtInfoMsg
                         ["Please specify the frontend path with --frontend-path option."]])%list)
            end
      end
  end.
Proof.
  intros m cands. subst m.
  unfold MainCpp.main.
  rewrite isSet_dev_server, isSet_frontend_path.
  destruct (opt_dev_server parser) as [url|] eqn:Ed; cbn [is_some].
  { rewrite (value_dev_server parser url Ed). reflexivity. }
  destruct (opt_frontend_path parser) as [path|] eqn:Ep; cbn [is_some].
  { rewrite (value_frontend_path parser path Ep). reflexivity. }
  subst cands. rewrite (cands_split env).
  change (AppSetup.possiblePaths env) with (MainCpp.possiblePaths env).
  set (c0 := applicationDirPath env ++ "/../frontend/dist").
  set (pp := MainCpp.possiblePaths env). clearbody pp.
  unfold first_existing. cbn [consulted find].
  destruct (dir_exists env c0) eqn:E0.
  - exists [DirExists c0]. split; [repeat split|]. split; [reflexivity|].
    rewrite QDir_exists_eq, E0. reflexivity.
  - exists (DirExists c0
            :: Log QtWarningMsg ["Frontend directory not found at:"; c0]
            :: trace (MainCpp.search env pp)).
    split; [apply (quiet_app [DirExists c0; Log QtWarningMsg _]);
            [repeat split | apply MainCpp_search_is_quiet]|].
    split; [cbn [dir_probes]; now rewrite MainCpp_search_dir_probes|].
    pose proof (MainCpp_search_result env pp) as Hres.
    unfold first_existing, result in Hres.
    destruct (find (dir_exists env) pp) as [d|];
      apply injective_projections; cbn [fst snd];
      rewrite ?fst_bind, ?snd_bind, QDir_exists_eq; cbn [fst snd];
      rewrite E0; cbn [negb];
      rewrite ?fst_bind, ?snd_bind; cbn [fst snd qWarning emit];
      rewrite ?fst_bind, ?snd_bind, Hres; reflexivity.
Qed.

Lemma consulted_length (exists_ : string -> bool) (cands : list string) :
  (length (consulted exists_ cands) <= length cands)%nat.
Proof.
  induction cands as [|c rest IH]; cbn [consulted length]; [lia|].
  destruct (exists_ c); cbn [length]; lia.
Qed.

(** Case analysis on the mode of the locator, for both versions at once. *)
Ltac locator_cases parser :=
  let Hr := fresh "Hr" in
  let Hm := fresh "Hm" in
  pose proof (resolveFrontendUrl_shape parser) as Hr;
  pose proof (MainCpp_main_shape parser) as Hm;
  cbv zeta in Hr, Hm;
  destruct (opt_dev_server parser) as [?url|] eqn:?Ed;
  [ | destruct (opt_frontend_path parser) as [?path|] eqn:?Ep;
      [ | let pre := fresh "pre" in
          let pre' := fresh "pre'" in
          destruct Hr as (pre & (?F & ?L & ?R & ?E) & ?Hd & Hr);
          destruct Hm as (pre' & (?F & ?L & ?R & ?E) & ?Hd & Hm);
          destruct (first_existing (dir_exists env)
                      (probe_sequence (applicationDirPath env) (currentPath env)))
            as [?d|] eqn:?Ef ] ];
  rewrite ?Hr, ?Hm; clear Hr Hm;
  rewrite ?AppSetup_loadIndex_eq, ?MainCpp_loadIndex_eq; cbv zeta;
  repeat match goal with
  | |- context [file_exists env ?p] => destruct (file_exists env p) eqn:?Efile
  end;
  cbn [fst snd result trace];
  rewrite ?dir_probes_app, ?file_probes_app, ?loaded_urls_app,
    ?reported_failure_app, ?entered_event_loop_app;
  repeat match goal with
  | Hx : _ = _ |- _ => rewrite Hx
  end.

Ltac locator_finish :=
  cbn [dir_probes file_probes loaded_urls reported_failure entered_event_loop
       existsb is_critical is_exec orb app length
       missing_index_html no_frontend_directory];
  repeat split; try reflexivity;
  try (let X := fresh in intros X; discriminate X).

(** X1.  The two versions of the locator, [resolveFrontendUrl] and the code
    inlined in main.cpp, ask the file system the same questions in the
    same order and log a critical line in the same cases.  main.cpp
    returns 1 exactly when [resolveFrontendUrl] logged a critical line,
    and loads nothing then; otherwise it loads the one URL that
    [resolveFrontendUrl] returns. *)
Theorem locator_versions_agree (parser : QCommandLineParser) :
  let r := AppSetup.resolveFrontendUrl env parser in
  let m := MainCpp.main env parser in
  dir_probes (trace m) = dir_probes (trace r) /\
  file_probes (trace m) = file_probes (trace r) /\
  reported_failure (trace m) = reported_failure (trace r) /\
  (result m = Return 1 <-> reported_failure (trace r) = true) /\
  loaded_urls (trace m) =
    (if reported_failure (trace r) then [] else [result r]).
Proof.
  intros r m. subst r m. locator_cases parser; locator_finish.
Qed.

(** X2.  Whatever the options and the disk, the locator asks about at most six
    directories and at most one file. *)
Theorem locator_probes_bounded (parser : QCommandLineParser) :
  let r := AppSetup.resolveFrontendUrl env parser in
  let m := MainCpp.main env parser in
  (length (dir_probes (trace r)) <= 6)%nat /\
  (length (file_probes (trace r)) <= 1)%nat /\
  (length (dir_probes (trace m)) <= 6)%nat /\
  (length (file_probes (trace m)) <= 1)%nat.
Proof.
  intros r m. subst r m.
  pose proof (consulted_length (dir_exists env)
                (probe_sequence (applicationDirPath env) (currentPath env))) as Hlen.
  change (length (probe_sequence (applicationDirPath env) (currentPath env)))
    with 6%nat in Hlen.
  locator_cases parser;
    unfold missing_index_html, no_frontend_directory;
    cbn [dir_probes file_probes app length]; rewrite ?length_app;
    cbn [dir_probes file_probes length]; repeat split; lia.
Qed.

(** [resolveFrontendUrl] itself loads nothing and does not enter the
    event loop. *)
Lemma resolveFrontendUrl_only_resolves (parser : QCommandLineParser) :
  loaded_urls (trace (AppSetup.resolveFrontendUrl env parser)) = [] /\
  entered_event_loop (trace (AppSetup.resolveFrontendUrl env parser)) = false.
Proof. locator_cases parser; locator_finish. Qed.

Lemma AppSetup_main_eq (parser : QCommandLineParser) :
  AppSetup.main env parser =
  let r := AppSetup.resolveFrontendUrl env parser in
  if isValid (result r)
  then (ReturnExec, (trace r ++ [SetUrl (result r); Exec])%list)
  else (Return 1, (trace r ++ [])%list).
Proof.
  unfold AppSetup.main. cbv zeta.
  apply injective_projections; rewrite ?fst_bind, ?snd_bind;
    unfold result, trace;
    destruct (isValid (fst (AppSetup.resolveFrontendUrl env parser)));
    reflexivity.
Qed.

(** X3.  main.cpp returns 1 exactly when it logged a critical line.  When
    [resolveFrontendUrl] logs a critical line it returns [QUrl()] and
    app/main.cpp returns 1; but app/main.cpp can also return 1 without
    any critical line: it returns 1 exactly when a critical line was
    logged or Qt does not hold the resolved URL valid. *)
Theorem locator_failure_is_reported (parser : QCommandLineParser) :
  let r := AppSetup.resolveFrontendUrl env parser in
  let m := MainCpp.main env parser in
  (result m = Return 1 <-> reported_failure (trace m) = true) /\
  (reported_failure (trace r) = true ->
   result r = QUrl_default /\ result (AppSetup.main env parser) = Return 1) /\
  (result (AppSetup.main env parser) = Return 1 <->
   reported_failure (trace r) = true \/ isValid (result r) = false).
Proof.
  intros r m. subst r m. rewrite AppSetup_main_eq. cbv zeta.
  locator_cases parser; cbn [result fst isValid];
    try (destruct (string_valid _));
    try (destruct (localFile_valid _));
    locator_finish;
    try match goal with X : false = true |- _ => discriminate X end;
    try (let X := fresh in intros [X|X]; discriminate X);
    try (left; reflexivity); try (right; reflexivity).
Qed.

(** X5.  Without --dev-server, a resolution that reports no failure is
    [QUrl::fromLocalFile] of a path dir/index.html which is the one file
    that was asked about and which exists; main.cpp loads that URL and
    no other. *)
Theorem locator_success_is_existing_index (parser : QCommandLineParser) :
  opt_dev_server parser = None ->
  reported_failure (trace (AppSetup.resolveFrontendUrl env parser)) = false ->
  exists d,
    result (AppSetup.resolveFrontendUrl env parser) =
      QUrl_fromLocalFile (d ++ "/index.html") /\
    file_exists env (d ++ "/index.html") = true /\
    file_probes (trace (AppSetup.resolveFrontendUrl env parser)) =
      [d ++ "/index.html"] /\
    loaded_urls (trace (MainCpp.main env parser)) =
      [QUrl_fromLocalFile (d ++ "/index.html")].
Proof.
  intros Hdev.
  locator_cases parser; try discriminate Hdev;
    unfold missing_index_html, no_frontend_directory;
    cbn [fst snd result trace reported_failure existsb is_critical orb
         file_probes loaded_urls app];
    (let X := fresh in intros X; try discriminate X);
    eexists; (split; [reflexivity|]); (split; [assumption|]);
    split; reflexivity.
Qed.

(** X6.  Both [main]s leave in one of two ways.  Either they return 1, and then
    no URL was given to the web view and the event loop was not entered;
    or they return what the event loop returned, and then the last two
    steps were loading one URL and entering the loop, nothing having been
    loaded before.  app/main.cpp only ever loads a URL that Qt holds
    valid. *)
Theorem main_exit_discipline (parser : QCommandLineParser) :
  match result (AppSetup.main env parser) with
  | Return code =>
      code = 1%Z /\
      loaded_urls (trace (AppSetup.main env parser)) = [] /\
      entered_event_loop (trace (AppSetup.main env parser)) = false
  | ReturnExec =>
      exists pre u,
        trace (AppSetup.main env parser) = (pre ++ [SetUrl u; Exec])%list /\
        isValid u = true /\
        loaded_urls pre = [] /\ entered_event_loop pre = false
  end /\
  match result (MainCpp.main env parser) with
  | Return code =>
      code = 1%Z /\
      loaded_urls (trace (MainCpp.main env parser)) = [] /\
      entered_event_loop (trace (MainCpp.main env parser)) = false
  | ReturnExec =>
      exists pre u,
        trace (MainCpp.main env parser) = (pre ++ [SetUrl u; Exec])%list /\
        loaded_urls pre = [] /\ entered_event_loop pre = false
  end.
Proof.
  split.
  - rewrite AppSetup_main_eq. cbv zeta.
    destruct (resolveFrontendUrl_only_resolves parser) as (Hl & He).
    destruct (isValid (result (AppSetup.resolveFrontendUrl env parser))) eqn:Ev;
      cbn [result trace fst snd].
    + exists (trace (AppSetup.resolveFrontendUrl env parser)),
             (result (AppSetup.resolveFrontendUrl env parser)).
      repeat split; assumption.
    + rewrite app_nil_r. repeat split; assumption.
  - pose proof (MainCpp_main_shape parser) as Hm. cbv zeta in Hm.
    destruct (opt_dev_server parser) as [url|].
    { rewrite Hm. cbn [result trace fst snd].
      exists [Log QtInfoMsg ["Loading frontend from dev server:"; url]],
             (QUrl_string url).
      repeat split. }
    destruct (opt_frontend_path parser) as [path|].
    { rewrite Hm, MainCpp_loadIndex_eq. cbv zeta.
      destruct (file_exists env (path ++ "/index.html"));
        cbn [result trace fst snd]; [|repeat split].
      exists [Log QtInfoMsg ["Using provided frontend path:"; path];
              FileExists (path ++ "/index.html");
              Log QtInfoMsg ["Loading frontend from:"; path ++ "/index.html"]],
             (QUrl_fromLocalFile (path ++ "/index.html")).
      repeat split. }
    destruct Hm as (pre & (Hf & Hl & Hr & He) & _ & Hm).
    destruct (first_existing (dir_exists env)
                (probe_sequence (applicationDirPath env) (currentPath env)))
      as [d|].
    + rewrite Hm, MainCpp_loadIndex_eq. cbv zeta.
      destruct (file_exists env (d ++ "/index.html"));
        cbn [result trace fst snd].
      * exists (pre ++ [FileExists (d ++ "/index.html")%string;
                        Log QtInfoMsg ["Loading frontend from:";
                                       (d ++ "/index.html")%string]])%list,
               (QUrl_fromLocalFile (d ++ "/index.html")).
        rewrite <- app_assoc, loaded_urls_app, entered_event_loop_app, Hl, He.
        repeat split.
      * rewrite loaded_urls_app, entered_event_loop_app, Hl, He. repeat split.
    + rewrite Hm. cbn [result trace fst snd].
      rewrite loaded_urls_app, entered_event_loop_app, Hl, He. repeat split.
Qed.

(** X7.  app/main.cpp and main.cpp leave the same way exactly when Qt holds
    the resolved URL valid or the resolution failed; a resolved URL that
    Qt rejects makes app/main.cpp return 1 where main.cpp loads it. *)
Theorem mains_agree_iff_url_valid (parser : QCommandLineParser) :
  let r := AppSetup.resolveFrontendUrl env parser in
  result (AppSetup.main env parser) = result (MainCpp.main env parser) <->
  (isValid (result r) = true \/ result r = QUrl_default).
Proof.
  intros r. subst r. rewrite AppSetup_main_eq. cbv zeta.
  locator_cases parser; cbn [result fst isValid];
    try (destruct (string_valid _));
    try (destruct (localFile_valid _));
    cbn [fst]; split;
    (let X := fresh in intros X; try discriminate X;
     try (destruct X as [X|X]; discriminate X));
    auto.
Qed.

(** X8.  The search loop on any list of paths: it returns the first path that
    exists, having asked about that path and the ones before it and about
    none after it; it returns nothing exactly when no path exists, having
    asked about all of them.  The loop of main.cpp behaves the same. *)
Theorem search_finds_first_existing (paths : list string) :
  match result (AppSetup.search env paths) with
  | Some d =>
      exists before after,
        paths = (before ++ d :: after)%list /\
        dir_exists env d = true /\
        Forall (fun p => dir_exists env p = false) before /\
        dir_probes (trace (AppSetup.search env paths)) = (before ++ [d])%list
  | None =>
      Forall (fun p => dir_exists env p = false) paths /\
      dir_probes (trace (AppSetup.search env paths)) = paths
  end /\
  result (MainCpp.search env paths) = result (AppSetup.search env paths) /\
  dir_probes (trace (MainCpp.search env paths)) =
    dir_probes (trace (AppSetup.search env paths)).
Proof.
  split.
  - induction paths as [|p rest IH]; [split; [constructor | reflexivity]|].
    cbn [AppSetup.search]. rewrite result_bind, trace_bind, QDir_exists_eq.
    cbn [result trace fst snd app dir_probes].
    destruct (dir_exists env p) eqn:Ep.
    + cbn [fst snd result trace bind qInfo emit ret dir_probes app].
      exists [], rest.
      split; [reflexivity|]. split; [exact Ep|].
      split; [constructor | reflexivity].
    + unfold result, trace in *.
      destruct (fst (AppSetup.search env rest)) as [d|] eqn:Es;
        cbn [fst snd]; rewrite ?Es in IH.
      * destruct IH as (before & after & -> & Hd & Hb & Hp).
        exists (p :: before), after. cbn [app]. rewrite Hp.
        split; [reflexivity|]. split; [exact Hd|].
        split; [constructor; assumption | reflexivity].
      * destruct IH as (Hall & Hp). rewrite Hp.
        split; [constructor; assumption | reflexivity].
  - split.
    + now rewrite MainCpp_search_result, AppSetup_search_result.
    + now rewrite MainCpp_search_dir_probes, AppSetup_search_dir_probes.
Qed.

End LocatorShape.

(** ** Parsed options and start-up *)

Section StartupFacts.
Context `{UrlParser}.
Variable env : Env.
Variable open_append : string -> bool.
Variable touch : string -> (string -> bool) -> (string -> bool).

Import Options Startup Facts.

Lemma QString_isEmpty_spec (s : string) :
  reflect (s = EmptyString) (ContextMenu.QString_isEmpty s).
Proof. apply String.eqb_spec. Qed.

(** X9.  What [parseCommandLine] stores is what the locator goes by: whenever
    the locator resolves to a dev-server URL, that URL is the
    [devServerUrl] field; a non-empty [devServerUrl] means the locator
    resolves to it; and with no dev server, a non-empty [frontendPath] is
    the one directory whose index.html is looked for. *)
Theorem parsed_options_match_resolution (parser : QCommandLineParser) :
  let options := parseCommandLine parser in
  let r := AppSetup.resolveFrontendUrl env parser in
  (forall s, result r = QUrl_string s -> devServerUrl options = s) /\
  (devServerUrl options <> EmptyString ->
   result r = QUrl_string (devServerUrl options)) /\
  (opt_dev_server parser = None ->
   frontendPath options <> EmptyString ->
   dir_probes (trace r) = [] /\
   file_probes (trace r) = [frontendPath options ++ "/index.html"]) /\
  frontendUrl options = QUrl_default.
Proof.
  intros options r. subst options r.
  unfold parseCommandLine.
  cbn [devServerUrl frontendPath frontendUrl].
  rewrite isSet_dev_server, isSet_frontend_path.
  pose proof (resolveFrontendUrl_shape env parser) as Hr. cbv zeta in Hr.
  destruct (opt_dev_server parser) as [url|] eqn:Ed; cbn [is_some].
  - rewrite (value_dev_server parser url Ed), Hr. cbn [result fst].
    repeat split; congruence.
  - destruct (opt_frontend_path parser) as [path|] eqn:Ep; cbn [is_some].
    + rewrite (value_frontend_path parser path Ep), Hr, AppSetup_loadIndex_eq.
      cbv zeta.
      destruct (file_exists env (path ++ "/index.html"));
        cbn [result trace fst snd]; repeat split;
        try (intros s E; discriminate E); congruence.
    + destruct Hr as (pre & _ & _ & Hr).
      destruct (LocatorSpec.first_existing _ _);
        rewrite Hr, ?AppSetup_loadIndex_eq; cbv zeta;
        try destruct (file_exists env _);
        cbn [result trace fst snd]; repeat split;
        try (intros s E; discriminate E); congruence.
Qed.

(** X10.  [setupLogging] hands back a log file exactly when the path is not
    empty and the file could be opened.  With an empty path it touches
    no file; when the open fails the [QFile] it allocated is deleted
    again; it never closes anything.  Every [QFile] it allocates is
    either deleted or handed back. *)
Theorem setupLogging_outcome (options : AppOptions) :
  let logging := setupLogging open_append options in
  let logFile := fst logging in
  let steps := snd logging in
  (forall p, logFile = Some p <->
             p = logFilePath options /\ p <> EmptyString /\ open_append p = true) /\
  (logFilePath options = EmptyString -> steps = []) /\
  created steps = (deleted steps ++ match logFile with Some p => [p] | None => [] end)%list /\
  closed steps = [] /\
  opened steps = created steps.
Proof.
  intros logging logFile steps. subst logging logFile steps.
  unfold setupLogging, openLogFile.
  destruct (QString_isEmpty_spec (logFilePath options)) as [Ee|Ee]; cbn [negb];
    [|destruct (open_append (logFilePath options)) eqn:Eo];
    cbn [fst snd created deleted closed opened app];
    (split; [intros p; split|
             split; [|split; [reflexivity | split; reflexivity]]]).
  - intros E; discriminate E.
  - intros (-> & Hne & _). contradiction.
  - reflexivity.
  - intros E. injection E as <-. repeat split; assumption.
  - intros (-> & _ & _). reflexivity.
  - intros E. contradiction.
  - intros E; discriminate E.
  - intros (-> & _ & Ho). congruence.
  - intros E. contradiction.
Qed.

(** X11.  The log-file step of main.cpp is the one of app/main.cpp except when
    --log is given with an empty value: [setupLogging] then does nothing,
    while main.cpp still tries to open the empty path. *)
Theorem logging_versions_agree_iff (parser : QCommandLineParser) :
  setupLogging open_append (parseCommandLine parser) =
    logToFile open_append parser <->
  opt_log parser <> Some EmptyString.
Proof.
  unfold setupLogging, logToFile, parseCommandLine, openLogFile.
  cbn [logFilePath].
  assert (Hset : isSet parser "log" = is_some (opt_log parser)) by reflexivity.
  assert (Hval : forall v, opt_log parser = Some v -> value parser "log" = v).
  { intros v E. unfold value. cbn. now rewrite E. }
  rewrite Hset.
  destruct (opt_log parser) as [v|] eqn:El; cbn [is_some].
  - rewrite (Hval v eq_refl).
    destruct (QString_isEmpty_spec v) as [Ee|Ee]; cbn [negb].
    + subst v. split; [|intros E; now contradiction E].
      destruct (open_append EmptyString); intros E; discriminate E.
    + split; [intros _ E; injection E as E; contradiction | reflexivity].
  - cbn. split; [intros _ E; discriminate E | reflexivity].
Qed.

Lemma file_steps_app (t1 t2 : list Step) :
  created (t1 ++ t2) = (created t1 ++ created t2)%list /\
  deleted (t1 ++ t2) = (deleted t1 ++ deleted t2)%list /\
  closed (t1 ++ t2) = (closed t1 ++ closed t2)%list.
Proof.
  induction t1 as [|s t1 (IH1 & IH2 & IH3)]; [repeat split|].
  destruct s; cbn [app created deleted closed]; rewrite IH1, IH2, IH3;
    repeat split.
Qed.

Lemma file_steps_map_Ev (t : list Event) :
  created (map Ev t) = [] /\ deleted (map Ev t) = [] /\ closed (map Ev t) = [].
Proof. induction t as [|e t IH]; [repeat split | exact IH]. Qed.

Lemma file_steps_verboseBlock (v : bool) :
  created (verboseBlock env v) = [] /\ deleted (verboseBlock env v) = [] /\
  closed (verboseBlock env v) = [].
Proof. destruct v; repeat split. Qed.

Lemma openLogFile_file_steps (path : string) :
  let logging := openLogFile open_append path in
  created (snd logging) =
    (deleted (snd logging) ++
     match fst logging with Some p => [p] | None => [] end)%list /\
  closed (snd logging) = [].
Proof.
  unfold openLogFile. destruct (open_append path); repeat split.
Qed.

(** Simplify the file steps of a concatenated run. *)
Ltac file_steps :=
  repeat match goal with
  | |- context [created (?a ++ ?b)] =>
      rewrite (proj1 (file_steps_app a b))
  | |- context [deleted (?a ++ ?b)] =>
      rewrite (proj1 (proj2 (file_steps_app a b)))
  | |- context [closed (?a ++ ?b)] =>
      rewrite (proj2 (proj2 (file_steps_app a b)))
  | |- context [created (map Ev ?t)] =>
      rewrite (proj1 (file_steps_map_Ev t))
  | |- context [deleted (map Ev ?t)] =>
      rewrite (proj1 (proj2 (file_steps_map_Ev t)))
  | |- context [closed (map Ev ?t)] =>
      rewrite (proj2 (proj2 (file_steps_map_Ev t)))
  | |- context [created (verboseBlock env ?v)] =>
      rewrite (proj1 (file_steps_verboseBlock v))
  | |- context [deleted (verboseBlock env ?v)] =>
      rewrite (proj1 (proj2 (file_steps_verboseBlock v)))
  | |- context [closed (verboseBlock env ?v)] =>
      rewrite (proj2 (proj2 (file_steps_verboseBlock v)))
  end.

(** X13.  What becomes of the log file.  When a [main] returns from the event
    loop, the log file it had open was closed and every [QFile] it
    created was deleted.  When it returns 1, it closed nothing, and the
    log file it had open was not deleted either: the early return comes
    before the clean-up block. *)
Theorem log_file_released_only_after_event_loop (parser : QCommandLineParser) :
  let held (logFile : option string) :=
    match logFile with Some p => [p] | None => [] end in
  let app := app_main env open_append touch parser in
  let app_log := fst (setupLogging open_append (parseCommandLine parser)) in
  let old := main_cpp env open_append touch parser in
  let old_log := fst (logToFile open_append parser) in
  match fst app with
  | ReturnExec =>
      closed (snd app) = held app_log /\ created (snd app) = deleted (snd app)
  | Return _ =>
      closed (snd app) = [] /\
      created (snd app) = (deleted (snd app) ++ held app_log)%list
  end /\
  match fst old with
  | ReturnExec =>
      closed (snd old) = held old_log /\ created (snd old) = deleted (snd old)
  | Return _ =>
      closed (snd old) = [] /\
      created (snd old) = (deleted (snd old) ++ held old_log)%list
  end.
Proof.
  intros held app app_log old old_log.
  subst app app_log old old_log.
  unfold app_main, main_cpp. cbv zeta.
  assert (Happ : let lg := setupLogging open_append (parseCommandLine parser) in
                 created (snd lg) = (deleted (snd lg) ++ held (fst lg))%list /\
                 closed (snd lg) = []).
  { unfold setupLogging.
    destruct (negb _); [apply openLogFile_file_steps | repeat split]. }
  assert (Hold : let lg := logToFile open_append parser in
                 created (snd lg) = (deleted (snd lg) ++ held (fst lg))%list /\
                 closed (snd lg) = []).
  { unfold logToFile.
    destruct (isSet parser "log"); [apply openLogFile_file_steps | repeat split]. }
  cbv zeta in Happ, Hold.
  destruct Happ as (Ha1 & Ha2). destruct Hold as (Ho1 & Ho2).
  set (lg := setupLogging open_append (parseCommandLine parser)) in *.
  set (lg' := logToFile open_append parser) in *.
  split.
  - destruct (isValid (result (AppSetup.resolveFrontendUrl _ parser)));
      cbn [negb fst snd]; file_steps;
      destruct (verbose (parseCommandLine parser));
      cbn [created deleted closed app]; rewrite ?Ha1, ?Ha2, ?app_nil_r;
      destruct (fst lg); cbn [cleanUp held created deleted closed app];
      rewrite ?app_nil_r; split; reflexivity.
  - destruct (result (MainCpp.main _ parser));
      cbn [fst snd]; file_steps;
      destruct (isSet parser "verbose");
      cbn [created deleted closed app]; rewrite ?Ho1, ?Ho2, ?app_nil_r;
      destruct (fst lg'); cbn [cleanUp held created deleted closed app];
      rewrite ?app_nil_r; split; reflexivity.
Qed.

End StartupFacts.

(** ** The context menu *)

Section ContextMenuFacts.
Context `{UrlParser}.
Import ContextMenu Facts.

(** X15.  The handler leaves the event to the base class exactly when there is
    no request, no page, or nothing to offer: no page action enabled, no
    link under the cursor and no selected text. *)
Theorem contextMenu_falls_back_iff_nothing_to_offer
    (request : option QWebEngineContextMenuRequest)
    (currentPage : option QWebEnginePage) :
  contextMenuEvent request currentPage = QWebEngineView_contextMenuEvent <->
  match request, currentPage with
  | Some request, Some page => expected_entries (capabilities request page) = []
  | _, _ => True
  end.
Proof.
  destruct request as [request|], currentPage as [page|];
    try (split; [intros _; exact I | reflexivity]).
  rewrite contextMenuEvent_build.
  unfold build, capabilities, expected_entries, standard_group,
    standard_separator, custom_group, view_source_group, inspect_group.
  cbn [canBack canForward canReload capLinkUrl capSelectedText
       canViewSource canInspect].
  destruct (enabled (action page Back)),
           (enabled (action page Forward)),
           (enabled (action page Reload)),
           (isEmpty (linkUrl request)),
           (QString_isEmpty (selectedText request)),
           (enabled (action page ViewSource)),
           (enabled (action page InspectElement));
    cbn; split; intros E; try discriminate E; reflexivity.
Qed.

Lemma build_separator_count (c : Caps) :
  build c <> [] ->
  (count_separators (build c) + 1 = nonempty_groups c)%nat /\
  (length (build c) = length (expected_entries c) + count_separators (build c))%nat.
Proof.
  destruct c as [b f r l t v i].
  destruct b, f, r, l, t, v, i; cbn; intros Hne;
    try (split; reflexivity); now contradiction Hne.
Qed.

(** X16.  A menu that is shown has one separator fewer than it has non-empty
    groups (standard actions, link and copy, view source, inspect), holds
    nothing but its entries and those separators, and so has at most ten
    items, at least one of them an entry. *)
Theorem contextMenu_separators_count_groups
    (request : QWebEngineContextMenuRequest) (page : QWebEnginePage)
    (menu : QMenu) :
  contextMenuEvent (Some request) (Some page) = MenuExec menu ->
  let c := capabilities request page in
  (count_separators menu + 1 = nonempty_groups c)%nat /\
  (length menu = length (expected_entries c) + count_separators menu)%nat /\
  (1 <= length (entries menu))%nat /\
  (length menu <= 10)%nat.
Proof.
  rewrite contextMenuEvent_build. intros Hshow c.
  assert (Hmenu : menu = build c /\ build c <> []).
  { subst c. unfold show in Hshow.
    destruct (build (capabilities request page)) as [|x l] eqn:Eb;
      [discriminate Hshow|].
    injection Hshow as <-. split; [reflexivity | discriminate]. }
  destruct Hmenu as (-> & Hne).
  destruct (build_separator_count c Hne) as (Hsep & Hlen).
  split; [exact Hsep|]. split; [exact Hlen|].
  rewrite build_entries.
  assert (Hent : (1 <= length (expected_entries c) <= 7)%nat /\
                 (nonempty_groups c <= 4)%nat).
  { clear Hsep Hlen. revert Hne. generalize c. clear.
    intros [b f r l t v i].
    destruct b, f, r, l, t, v, i; cbn; intros Hne;
      try (repeat split; lia); now contradiction Hne. }
  lia.
Qed.

End ContextMenuFacts.

(** ** The bridge object over sequences of calls *)

Section BackendFacts.
Import Backend Facts.
Open Scope Z_scope.

Lemma to_int_range (z : Z) : INT_MIN <= to_int z <= INT_MAX.
Proof.
  unfold to_int, INT_MIN, INT_MAX.
  pose proof (Z.mod_pos_bound (z + 2 ^ 31) (2 ^ 32) ltac:(lia)). lia.
Qed.

(** The successor on [int] never gives back the number it was given. *)
Lemma int_add_1_changes (a : Z) : int_add a 1 <> a.
Proof.
  unfold int_add, to_int. intros E.
  pose proof (Z.mod_pos_bound (a + 1 + 2 ^ 31) (2 ^ 32) ltac:(lia)) as Hb.
  pose proof (Z.div_mod (a + 1 + 2 ^ 31) (2 ^ 32) ltac:(lia)) as Hd.
  lia.
Qed.

Lemma setMessage_message (msg : string) (self : BackendObject) :
  m_message (fst (setMessage msg self)) = msg.
Proof.
  unfold setMessage.
  destruct (String.eqb_spec (m_message self) msg); cbn; congruence.
Qed.

(** X17.  A setter stores its argument and leaves the other field alone: the
    getter then returns the argument.  Calling the setter again with the
    same argument changes nothing and emits no signal. *)
Theorem setters_store_and_are_idempotent
    (self : BackendObject) (n : Z) (msg : string) :
  count (fst (setCount n self)) = n /\
  message (fst (setCount n self)) = message self /\
  message (fst (setMessage msg self)) = msg /\
  count (fst (setMessage msg self)) = count self /\
  setCount n (fst (setCount n self)) =
    (fst (setCount n self), [Info "Backend received setCount with value:" n]) /\
  setMessage msg (fst (setMessage msg self)) = (fst (setMessage msg self), []).
Proof.
  unfold count, message.
  split; [apply setCount_count|].
  split; [unfold setCount; destruct (m_count self =? n); reflexivity|].
  split; [apply setMessage_message|].
  split; [unfold setMessage; destruct (m_message self =? msg)%string; reflexivity|].
  split.
  - unfold setCount at 1. rewrite setCount_count, Z.eqb_refl. reflexivity.
  - unfold setMessage at 1. rewrite setMessage_message, String.eqb_refl.
    reflexivity.
Qed.

(** X18.  For the two setters and [incrementCount], a signal is emitted exactly
    when the call changed the object; a [countChanged] or
    [messageChanged] signal carries the value the object holds after the
    call, which is not the value it held before. *)
Theorem signal_iff_state_changed (c : Call) (self : BackendObject) :
  let after := fst (invoke c self) in
  let signals := notifications (snd (invoke c self)) in
  (is_sendToBackend c = false -> (signals = [] <-> after = self)) /\
  (forall k, In (countChanged k) signals ->
             m_count after = k /\ m_count self <> k) /\
  (forall m, In (messageChanged m) signals ->
             m_message after = m /\ m_message self <> m).
Proof.
  intros after signals. subst after signals.
  destruct self as [m0 c0].
  assert (Hne := int_add_1_changes c0).
  destruct c as [msg | n | | text]; cbn [invoke is_sendToBackend];
    unfold setMessage, incrementCount, setCount, sendToBackend;
    cbn [m_message m_count fst snd];
    [ destruct (String.eqb_spec m0 msg) as [E|E]
    | destruct (Z.eqb_spec c0 n) as [E|E]
    | destruct (Z.eqb_spec c0 (int_add c0 1)) as [E|E]; [congruence|]
    | ];
    cbn [negb fst snd notifications m_message m_count];
    (split;
     [ intros Hsend; try discriminate Hsend;
       split; intros X; first [reflexivity | discriminate X | congruence]
     | split; intros v Hin; cbn [In] in Hin;
       repeat match type of Hin with
              | _ \/ _ => destruct Hin as [Hin|Hin]
              | False => destruct Hin
              end;
       try discriminate Hin;
       (injection Hin as <-; split; [reflexivity | assumption]) ]).
Qed.

Lemma invoke_at_most_one_signal (c : Call) (self : BackendObject) :
  (length (notifications (snd (invoke c self))) <= 1)%nat.
Proof.
  destruct c as [msg | n | | text]; cbn [invoke].
  - rewrite setMessage_notifications.
    destruct (m_message self =? msg)%string; cbn; lia.
  - rewrite setCount_notifications. destruct (m_count self =? n); cbn; lia.
  - unfold incrementCount. cbn [snd notifications].
    rewrite setCount_notifications.
    destruct (m_count self =? int_add (m_count self) 1); cbn; lia.
  - cbn. lia.
Qed.

(** Calls made in sequence compose: running one list of calls after
    another is running their concatenation, effects in order. *)
Theorem run_app (calls1 calls2 : list Call) (self : BackendObject) :
  run (calls1 ++ calls2) self =
  (fst (run calls2 (fst (run calls1 self))),
   (snd (run calls1 self) ++ snd (run calls2 (fst (run calls1 self))))%list).
Proof.
  revert self. induction calls1 as [|c rest IH]; intros self.
  - cbn [app run fst snd]. now destruct (run calls2 self).
  - cbn [app run fst snd]. rewrite IH. cbn [fst snd].
    now rewrite app_assoc.
Qed.

(** X19.  No call emits more than one signal, so a sequence of calls emits at
    most as many signals as it has calls. *)
Theorem run_at_most_one_signal_per_call (calls : list Call) (self : BackendObject) :
  (length (notifications (snd (run calls self))) <= length calls)%nat.
Proof.
  revert self. induction calls as [|c rest IH]; intros self; [cbn; lia|].
  cbn [run snd length]. rewrite notifications_app, length_app.
  pose proof (invoke_at_most_one_signal c self).
  pose proof (IH (fst (invoke c self))). lia.
Qed.

Lemma invoke_frame_message (c : Call) (self : BackendObject) :
  is_setMessage c = false ->
  m_message (fst (invoke c self)) = m_message self /\
  forall m, ~ In (messageChanged m) (notifications (snd (invoke c self))).
Proof.
  destruct self as [m0 c0].
  destruct c as [msg | n | | text]; intros Hc; try discriminate Hc;
    cbn [invoke]; unfold incrementCount, setCount, sendToBackend;
    cbn [m_message m_count fst snd];
    try destruct (negb _); cbn [fst snd notifications m_message];
    (split; [reflexivity|]); intros m Hin; cbn [In] in Hin;
    repeat match type of Hin with
           | _ \/ _ => destruct Hin as [Hin|Hin]
           | False => destruct Hin
           end; discriminate Hin.
Qed.

Lemma invoke_frame_count (c : Call) (self : BackendObject) :
  touches_count c = false ->
  m_count (fst (invoke c self)) = m_count self /\
  forall k, ~ In (countChanged k) (notifications (snd (invoke c self))).
Proof.
  destruct self as [m0 c0].
  destruct c as [msg | n | | text]; intros Hc; try discriminate Hc;
    cbn [invoke]; unfold setMessage, sendToBackend;
    cbn [m_message m_count fst snd];
    try destruct (negb _); cbn [fst snd notifications m_count];
    (split; [reflexivity|]); intros k Hin; cbn [In] in Hin;
    repeat match type of Hin with
           | _ \/ _ => destruct Hin as [Hin|Hin]
           | False => destruct Hin
           end; discriminate Hin.
Qed.

(** X20.  The message changes through [setMessage] only and the count through
    [setCount] and [incrementCount] only: a sequence without the former
    leaves the message as it was and emits no [messageChanged], a
    sequence without the latter leaves the count as it was and emits no
    [countChanged]. *)
Theorem run_frame (calls : list Call) (self : BackendObject) :
  (forallb (fun c => negb (is_setMessage c)) calls = true ->
   m_message (fst (run calls self)) = m_message self /\
   forall m, ~ In (messageChanged m) (notifications (snd (run calls self)))) /\
  (forallb (fun c => negb (touches_count c)) calls = true ->
   m_count (fst (run calls self)) = m_count self /\
   forall k, ~ In (countChanged k) (notifications (snd (run calls self)))).
Proof.
  revert self. induction calls as [|c rest IH]; intros self.
  - split; intros _; (split; [reflexivity | intros ? []]).
  - cbn [run fst snd forallb].
    destruct (IH (fst (invoke c self))) as (IHm & IHc).
    split; intros Hall; apply andb_true_iff in Hall;
      destruct Hall as (Hc & Hrest); apply negb_true_iff in Hc.
    + destruct (IHm Hrest) as (E & Hno).
      destruct (invoke_frame_message c self Hc) as (E1 & Hno1).
      split; [congruence|].
      intros m Hin. rewrite notifications_app in Hin.
      apply in_app_or in Hin. destruct Hin as [Hin|Hin];
        [exact (Hno1 m Hin) | exact (Hno m Hin)].
    + destruct (IHc Hrest) as (E & Hno).
      destruct (invoke_frame_count c self Hc) as (E1 & Hno1).
      split; [congruence|].
      intros k Hin. rewrite notifications_app in Hin.
      apply in_app_or in Hin. destruct Hin as [Hin|Hin];
        [exact (Hno1 k Hin) | exact (Hno k Hin)].
Qed.

(** X21.  [k] increments in a row that stay below [INT_MAX] add [k] to the
    count and emit [k] signals, carrying the counts passed through in
    order; the message is left alone. *)
Theorem run_increments (k : nat) (self : BackendObject) :
  INT_MIN <= m_count self ->
  m_count self + Z.of_nat k <= INT_MAX ->
  let after := run (repeat CallIncrementCount k) self in
  m_count (fst after) = m_count self + Z.of_nat k /\
  m_message (fst after) = m_message self /\
  notifications (snd after) = counting (m_count self) k.
Proof.
  revert self. induction k as [|k IH]; intros self Hlo Hhi.
  - cbn. repeat split; lia.
  - cbn [repeat run fst snd invoke].
    assert (Hstep : int_add (m_count self) 1 = m_count self + 1)
      by (apply int_add_1_no_overflow; lia).
    assert (Hc : m_count (fst (incrementCount self)) = m_count self + 1)
      by (unfold incrementCount; cbn [fst]; now rewrite setCount_count).
    assert (Hm : m_message (fst (incrementCount self)) = m_message self).
    { unfold incrementCount, setCount. cbn [fst].
      destruct (negb _); reflexivity. }
    assert (Hs : notifications (snd (incrementCount self)) =
                 [countChanged (m_count self + 1)]).
    { unfold incrementCount. cbn [snd notifications].
      rewrite setCount_notifications, Hstep.
      destruct (Z.eqb_spec (m_count self) (m_count self + 1)); [lia | reflexivity]. }
    destruct (IH (fst (incrementCount self))) as (IH1 & IH2 & IH3);
      [rewrite Hc; lia | rewrite Hc; lia |].
    rewrite notifications_app, Hs, IH1, IH2, IH3, Hc, Hm.
    cbn [counting app]. repeat split; lia.
Qed.

(** X22.  The counter stays an [int]: from an object whose count is in the
    [int] range, calls whose arguments are [int]s never take it out of
    that range. *)
Theorem run_keeps_count_int (calls : list Call) (self : BackendObject) :
  INT_MIN <= m_count self <= INT_MAX ->
  forallb well_typed calls = true ->
  INT_MIN <= m_count (fst (run calls self)) <= INT_MAX.
Proof.
  revert self. induction calls as [|c rest IH]; intros self Hself Hall.
  - exact Hself.
  - cbn [forallb] in Hall. apply andb_true_iff in Hall.
    destruct Hall as (Hc & Hrest).
    cbn [run fst]. apply IH; [|exact Hrest].
    destruct c as [msg | n | | text]; cbn [invoke].
    + unfold setMessage. destruct (negb _); exact Hself.
    + rewrite setCount_count. cbn [well_typed] in Hc.
      apply andb_true_iff in Hc. destruct Hc as (H0 & H1).
      apply Z.leb_le in H0. apply Z.leb_le in H1. lia.
    + unfold incrementCount. cbn [fst]. rewrite setCount_count.
      apply to_int_range.
    + exact Hself.
Qed.

End BackendFacts.

(** ** The further properties on concrete inputs *)

(** [locator_failure_is_reported] on the empty disk. *)
Lemma locator_failure_is_reported_witness :
  Facts.reported_failure
    (trace (AppSetup.resolveFrontendUrl Sample.empty_env Sample.no_options)) = true /\
  result (AppSetup.resolveFrontendUrl Sample.empty_env Sample.no_options) =
    QUrl_default /\
  result (AppSetup.main Sample.empty_env Sample.no_options) = Return 1.
Proof.
  assert (Hreported :
    Facts.reported_failure
      (trace (AppSetup.resolveFrontendUrl Sample.empty_env Sample.no_options))
    = true) by reflexivity.
  destruct (locator_failure_is_reported Sample.empty_env Sample.no_options)
    as (_ & Hfail & _).
  split; [exact Hreported | exact (Hfail Hreported)].
Defined.

(** [locator_success_is_existing_index] on the fixture with the frontend
    at the third candidate. *)
Lemma locator_success_is_existing_index_witness :
  opt_dev_server Sample.no_options = None /\
  Facts.reported_failure
    (trace (AppSetup.resolveFrontendUrl Sample.third_candidate_env
              Sample.no_options)) = false /\
  exists d,
    result (AppSetup.resolveFrontendUrl Sample.third_candidate_env
              Sample.no_options) = QUrl_fromLocalFile (d ++ "/index.html") /\
    file_exists Sample.third_candidate_env (d ++ "/index.html") = true /\
    file_probes (trace (AppSetup.resolveFrontendUrl Sample.third_candidate_env
                          Sample.no_options)) = [d ++ "/index.html"] /\
    loaded_urls (trace (MainCpp.main Sample.third_candidate_env
                          Sample.no_options)) =
      [QUrl_fromLocalFile (d ++ "/index.html")].
Proof.
  split; [reflexivity|]. split; [reflexivity|].
  exact (locator_success_is_existing_index Sample.third_candidate_env
           Sample.no_options eq_refl eq_refl).
Defined.

(** [parsed_options_match_resolution] with a dev server given, and with
    only a frontend path given. *)
Lemma parsed_options_match_resolution_witness :
  Options.devServerUrl
    (Options.parseCommandLine
       {| opt_verbose := false; opt_log := None;
          opt_dev_server := Some "http://localhost:5173";
          opt_frontend_path := Some "/srv/dist" |}) <> EmptyString /\
  result (AppSetup.resolveFrontendUrl Sample.empty_env
            {| opt_verbose := false; opt_log := None;
               opt_dev_server := Some "http://localhost:5173";
               opt_frontend_path := Some "/srv/dist" |}) =
    QUrl_string "http://localhost:5173" /\
  Options.frontendPath
    (Options.parseCommandLine
       {| opt_verbose := false; opt_log := None;
          opt_dev_server := None;
          opt_frontend_path := Some "/srv/dist" |}) <> EmptyString /\
  file_probes (trace (AppSetup.resolveFrontendUrl Sample.empty_env
                        {| opt_verbose := false; opt_log := None;
                           opt_dev_server := None;
                           opt_frontend_path := Some "/srv/dist" |})) =
    ["/srv/dist/index.html"].
Proof.
  assert (Hdev : "http://localhost:5173" <> EmptyString) by discriminate.
  assert (Hpath : "/srv/dist" <> EmptyString) by discriminate.
  destruct (parsed_options_match_resolution Sample.empty_env
              {| opt_verbose := false; opt_log := None;
                 opt_dev_server := Some "http://localhost:5173";
                 opt_frontend_path := Some "/srv/dist" |})
    as (_ & Hgiven & _).
  destruct (parsed_options_match_resolution Sample.empty_env
              {| opt_verbose := false; opt_log := None;
                 opt_dev_server := None;
                 opt_frontend_path := Some "/srv/dist" |})
    as (_ & _ & Hlocal & _).
  split; [exact Hdev|]. split; [exact (Hgiven Hdev)|].
  split; [exact Hpath|]. exact (proj2 (Hlocal eq_refl Hpath)).
Defined.

(** [setupLogging_outcome] without --log. *)
Lemma setupLogging_outcome_witness :
  Options.logFilePath (Options.parseCommandLine Sample.no_options) = EmptyString /\
  snd (Startup.setupLogging (fun _ => true)
         (Options.parseCommandLine Sample.no_options)) = [].
Proof.
  split; [reflexivity|].
  destruct (setupLogging_outcome (fun _ => true)
              (Options.parseCommandLine Sample.no_options))
    as (_ & Hnone & _).
  exact (Hnone eq_refl).
Defined.

(** [contextMenu_separators_count_groups] on the full menu: ten items,
    four groups, three separators. *)
Lemma contextMenu_separators_count_groups_witness :
  ContextMenu.contextMenuEvent
    (Some {| ContextMenu.linkUrl := QUrl_string "http://a";
             ContextMenu.selectedText := "text" |})
    (Some {| ContextMenu.action := fun _ =>
               Some {| ContextMenu.isEnabled := true |} |}) =
  ContextMenu.MenuExec
    [ContextMenu.PageAction ContextMenu.Back;
     ContextMenu.PageAction ContextMenu.Forward;
     ContextMenu.PageAction ContextMenu.Reload;
     ContextMenu.Separator;
     ContextMenu.OpenLinkInExternalBrowser (QUrl_string "http://a");
     ContextMenu.Copy "text";
     ContextMenu.Separator;
     ContextMenu.PageAction ContextMenu.ViewSource;
     ContextMenu.Separator;
     ContextMenu.PageAction ContextMenu.InspectElement] /\
  (Facts.count_separators
     [ContextMenu.PageAction ContextMenu.Back;
      ContextMenu.PageAction ContextMenu.Forward;
      ContextMenu.PageAction ContextMenu.Reload;
      ContextMenu.Separator;
      ContextMenu.OpenLinkInExternalBrowser (QUrl_string "http://a");
      ContextMenu.Copy "text";
      ContextMenu.Separator;
      ContextMenu.PageAction ContextMenu.ViewSource;
      ContextMenu.Separator;
      ContextMenu.PageAction ContextMenu.InspectElement] + 1 = 4)%nat.
Proof.
  split; [reflexivity|].
  exact (proj1 (contextMenu_separators_count_groups
                  {| ContextMenu.linkUrl := QUrl_string "http://a";
                     ContextMenu.selectedText := "text" |}
                  {| ContextMenu.action := fun _ =>
                       Some {| ContextMenu.isEnabled := true |} |}
                  _ eq_refl)).
Defined.

(** [signal_iff_state_changed] at the first [setCount 5]. *)
Lemma signal_iff_state_changed_witness :
  Facts.is_sendToBackend (Backend.CallSetCount 5) = false /\
  In (Backend.countChanged 5)
     (Backend.notifications
        (snd (Backend.invoke (Backend.CallSetCount 5) Backend.BackendObject_new))) /\
  Backend.m_count
    (fst (Backend.invoke (Backend.CallSetCount 5) Backend.BackendObject_new)) = 5%Z /\
  (Backend.notifications
     (snd (Backend.invoke (Backend.CallSetCount 5) Backend.BackendObject_new)) = [] <->
   fst (Backend.invoke (Backend.CallSetCount 5) Backend.BackendObject_new) =
     Backend.BackendObject_new).
Proof.
  assert (Hin : In (Backend.countChanged 5)
                  (Backend.notifications
                     (snd (Backend.invoke (Backend.CallSetCount 5)
                             Backend.BackendObject_new))))
    by (left; reflexivity).
  destruct (signal_iff_state_changed (Backend.CallSetCount 5)
              Backend.BackendObject_new) as (Hiff & Hcount & _).
  split; [reflexivity|]. split; [exact Hin|].
  split; [exact (proj1 (Hcount 5%Z Hin)) | exact (Hiff eq_refl)].
Defined.

(** [run_frame] on a sequence that never sets the message and on one that
    never touches the count. *)
Lemma run_frame_witness :
  forallb (fun c => negb (Facts.is_setMessage c))
    [Backend.CallSetCount 5; Backend.CallIncrementCount;
     Backend.CallSendToBackend "ping"] = true /\
  Backend.m_message
    (fst (Backend.run
            [Backend.CallSetCount 5; Backend.CallIncrementCount;
             Backend.CallSendToBackend "ping"]
            Backend.BackendObject_new)) = "Hello from C++ backend!" /\
  forallb (fun c => negb (Facts.touches_count c))
    [Backend.CallSetMessage "hi"; Backend.CallSendToBackend "ping"] = true /\
  Backend.m_count
    (fst (Backend.run
            [Backend.CallSetMessage "hi"; Backend.CallSendToBackend "ping"]
            Backend.BackendObject_new)) = 0%Z.
Proof.
  destruct (run_frame [Backend.CallSetCount 5; Backend.CallIncrementCount;
                       Backend.CallSendToBackend "ping"]
              Backend.BackendObject_new) as (Hmessage & _).
  destruct (run_frame [Backend.CallSetMessage "hi"; Backend.CallSendToBackend "ping"]
              Backend.BackendObject_new) as (_ & Hcount).
  split; [reflexivity|]. split; [exact (proj1 (Hmessage eq_refl))|].
  split; [reflexivity|]. exact (proj1 (Hcount eq_refl)).
Defined.

(** [run_increments]: three increments of a new object. *)
Lemma run_increments_witness :
  (Backend.INT_MIN <= Backend.m_count Backend.BackendObject_new)%Z /\
  (Backend.m_count Backend.BackendObject_new + Z.of_nat 3 <= Backend.INT_MAX)%Z /\
  Backend.m_count
    (fst (Backend.run (repeat Backend.CallIncrementCount 3)
            Backend.BackendObject_new)) = 3%Z /\
  Backend.notifications
    (snd (Backend.run (repeat Backend.CallIncrementCount 3)
            Backend.BackendObject_new)) =
    [Backend.countChanged 1; Backend.countChanged 2; Backend.countChanged 3].
Proof.
  assert (Hlo : (Backend.INT_MIN <= Backend.m_count Backend.BackendObject_new)%Z)
    by (vm_compute; discriminate).
  assert (Hhi : (Backend.m_count Backend.BackendObject_new + Z.of_nat 3
                 <= Backend.INT_MAX)%Z)
    by (vm_compute; discriminate).
  destruct (run_increments 3 Backend.BackendObject_new Hlo Hhi)
    as (Hcount & _ & Hsignals).
  split; [exact Hlo|]. split; [exact Hhi|].
  split; [exact Hcount | exact Hsignals].
Defined.

(** [run_keeps_count_int]: an increment at [INT_MAX] stays in range. *)
Lemma run_keeps_count_int_witness :
  (Backend.INT_MIN <= Backend.m_count Backend.BackendObject_new
   <= Backend.INT_MAX)%Z /\
  forallb Facts.well_typed
    [Backend.CallSetCount Backend.INT_MAX; Backend.CallIncrementCount] = true /\
  (Backend.INT_MIN <=
   Backend.m_count
     (fst (Backend.run
             [Backend.CallSetCount Backend.INT_MAX; Backend.CallIncrementCount]
             Backend.BackendObject_new))
   <= Backend.INT_MAX)%Z.
Proof.
  assert (Hself : (Backend.INT_MIN <= Backend.m_count Backend.BackendObject_new
                   <= Backend.INT_MAX)%Z)
    by (split; vm_compute; discriminate).
  split; [exact Hself|]. split; [reflexivity|].
  exact (run_keeps_count_int
           [Backend.CallSetCount Backend.INT_MAX; Backend.CallIncrementCount]
           Backend.BackendObject_new Hself eq_refl).
Defined.

(** A start that fails with the log file open: nothing on disk but the
    log file, which can be opened.  The file is opened and never
    closed. *)
Example failed_start_keeps_log_open :
  Startup.app_main Sample.empty_env (fun _ => true) Sample.sample_touch
    {| opt_verbose := true; opt_log := Some "/tmp/app.log";
       opt_dev_server := None; opt_frontend_path := Some "/x" |} =
  (Return 1,
   [Startup.InstallMessageHandler;
    Startup.Ev (Log QtInfoMsg ["Verbose mode enabled"]);
    Startup.Ev (Log QtInfoMsg ["Application directory:"; "/opt/taqyon/bin"]);
    Startup.NewQFile "/tmp/app.log";
    Startup.OpenAppend "/tmp/app.log";
    Startup.Ev (Log QtInfoMsg ["Logging to file:"; "/tmp/app.log"]);
    Startup.ConnectCountChanged;
    Startup.Ev (Log QtInfoMsg ["Using provided frontend path:"; "/x"]);
    Startup.Ev (FileExists "/x/index.html");
    Startup.Ev (Log QtCriticalMsg ["index.html not found at:"; "/x/index.html"]);
    Startup.Ev (Log QtInfoMsg
                  ["Make sure you've built the frontend with 'npm run frontend:build'"])]).
Proof. reflexivity. Qed.

(** A start with a dev server: the log file is closed and deleted after
    the event loop. *)
Example dev_server_start :
  Startup.main_cpp Sample.empty_env (fun _ => true) Sample.sample_touch
    {| opt_verbose := false; opt_log := Some "/tmp/app.log";
       opt_dev_server := Some "http://localhost:5173";
       opt_frontend_path := None |} =
  (ReturnExec,
   [Startup.NewQFile "/tmp/app.log";
    Startup.OpenAppend "/tmp/app.log";
    Startup.Ev (Log QtInfoMsg ["Logging to file:"; "/tmp/app.log"]);
    Startup.ConnectLoadFinished;
    Startup.Ev (Log QtInfoMsg ["Loading frontend from dev server:";
                               "http://localhost:5173"]);
    Startup.Ev (SetUrl (QUrl_string "http://localhost:5173"));
    Startup.Ev Exec;
    Startup.CloseFile "/tmp/app.log";
    Startup.DeleteQFile "/tmp/app.log"]).
Proof. reflexivity. Qed.

(** The log file can be the entry file: with [--frontend-path /x] and
    [--log /x/index.html] on an empty disk, opening the log file creates
    the file the locator then finds, and the frontend is loaded where
    the same start without --log returns 1. *)
Example log_file_can_be_the_entry_file :
  fst (Startup.app_main Sample.empty_env (fun _ => true) Sample.sample_touch
         {| opt_verbose := false; opt_log := Some "/x/index.html";
            opt_dev_server := None; opt_frontend_path := Some "/x" |}) =
    ReturnExec /\
  fst (Startup.app_main Sample.empty_env (fun _ => true) Sample.sample_touch
         {| opt_verbose := false; opt_log := None;
            opt_dev_server := None; opt_frontend_path := Some "/x" |}) =
    Return 1.
Proof. split; reflexivity. Qed.
